(** * qrpay: the QR code provisioning service of [index.js]

    A shallow embedding of the Express application: the job producer
    ([POST /generateQR]), the queue processor ([qrQueue.process]), the
    activation endpoint ([POST /activate]), the paginated listing
    ([GET /generateQR]), the lookup ([POST /info]) and the bulk delete
    ([DELETE /qrCodes]).

    Conventions of the model.
    - A JavaScript number is modelled by an exact integer ([Z]); [NaN] and
      [undefined] are separate values of [JsValue].  The model agrees with
      JavaScript on the safe integers.
    - Strings are byte strings.
    - Every asynchronous function is a computation [Async A] that threads the
      process state and either resolves or rejects.  A handler runs to
      completion before the next one starts.
    - What the outside world answers during one invocation (the identifier
      drawn by [uuidv4], the drawing and upload services, database faults) is
      read from a [World]. *)

From Stdlib Require Import ZArith String Ascii Lia.
From stdpp Require Import base list strings pretty.
From Equations Require Import Equations.

Local Open Scope Z_scope.

(** ** JavaScript values *)

Inductive JsValue : Type :=
  | Undefined
  | NaN
  | Num (n : Z).

(** [v || d] where [d] is a non-zero numeric literal: the result is always a
    number. *)
Definition js_or (v : JsValue) (d : Z) : Z :=
  match v with
  | Num n => if n =? 0 then d else n
  | NaN | Undefined => d
  end.

(** [!v] for a request field that is either absent or a string. *)
Definition js_not (v : option string) : bool :=
  match v with
  | None => true
  | Some s => if decide (s = "") then true else false
  end.

(** The value of a field that passed the [!v] test. *)
Definition field (v : option string) : string := default "" v.

(** *** [parseInt] *)

(** The value read so far by [parseInt], zero before the first digit. *)
Definition read_so_far (acc : JsValue) : Z :=
  match acc with
  | Num n => n
  | NaN | Undefined => 0
  end.

(** White space and line terminators of the ASCII range. *)
Definition is_white_space (c : ascii) : bool :=
  let n := N_of_ascii c in
  ((9 <=? n) && (n <=? 13) || (n =? 32))%N.

Fixpoint skip_white_space (s : string) : string :=
  match s with
  | String c s' => if is_white_space c then skip_white_space s' else s
  | EmptyString => s
  end.

Definition digit_value (c : ascii) : option Z :=
  let n := Z.of_N (N_of_ascii c) in
  if (48 <=? n) && (n <=? 57) then Some (n - 48)
  else if (97 <=? n) && (n <=? 122) then Some (n - 87)
  else if (65 <=? n) && (n <=? 90) then Some (n - 55)
  else None.

(** Reads the longest prefix of digits below [radix]; [acc] is [NaN] until
    the first digit has been read. *)
Fixpoint parse_digits (radix : Z) (s : string) (acc : JsValue) : JsValue :=
  match s with
  | String c s' =>
      match digit_value c with
      | Some d =>
          if d <? radix
          then parse_digits radix s' (Num (radix * read_so_far acc + d))
          else acc
      | None => acc
      end
  | EmptyString => acc
  end.

Definition strip_sign (s : string) : Z * string :=
  match s with
  | String "-" s' => (-1, s')
  | String "+" s' => (1, s')
  | _ => (1, s)
  end.

Definition strip_radix (s : string) : Z * string :=
  match s with
  | String "0" (String "x" s') => (16, s')
  | String "0" (String "X" s') => (16, s')
  | _ => (10, s)
  end.

Definition parseInt_string (s : string) : JsValue :=
  let '(sign, s1) := strip_sign (skip_white_space s) in
  let '(radix, s2) := strip_radix s1 in
  match parse_digits radix s2 NaN with
  | Num n => Num (sign * n)
  | v => v
  end.

(** [parseInt(req.query.x)]: an absent parameter is [undefined], which
    [parseInt] first converts to the string ["undefined"]. *)
Definition parseInt (q : option string) : JsValue :=
  match q with
  | Some s => parseInt_string s
  | None => parseInt_string "undefined"
  end.

(** [Math.ceil(a / b)] on integers, [b] non-zero. *)
Definition ceil_div (a b : Z) : Z := - ((- a) / b).

(** ** The data model *)

Definition Error := string.
Definition ObjectId := nat.

(** A document of the [QRCode] collection ([qrSchema]). *)
Record QRCode : Type := mkQRCode {
  doc_id : ObjectId;
  uuid : string;
  s3URL : string;
  firstName : string;
  lastName : string;
  accountNumber : string;
  isActivated : bool;
}.

(** Modelled from the spec: the job channel of [./queue], which is not part
    of the sources.  A job carries no payload; every [add] yields exactly one
    independent unit of work, without deduplication, and the worker takes
    jobs in the order they were added. *)
Inductive JobData : Type := EmptyObject.

Record Job : Type := mkJob { data : JobData }.

Definition Queue := list Job.

(** Modelled from the spec: [add] of the queue exported by [./queue]; it
    accepts the job at the back of the channel and creates one job per
    call. *)
Definition queue_add (d : JobData) (q : Queue) : Queue := q ++ [mkJob d].

(** The state of the process and of its collaborators. *)
Record System : Type := mkSystem {
  qrQueue : Queue;
  QRCodeModel : list QRCode;
  next_id : ObjectId;
  console : list Error;
}.

Definition initial : System := mkSystem [] [] 0%nat [].

Definition with_queue (q : Queue) (s : System) : System :=
  mkSystem q (QRCodeModel s) (next_id s) (console s).

Definition with_docs (l : list QRCode) (s : System) : System :=
  mkSystem (qrQueue s) l (next_id s) (console s).

(** ** Asynchronous computations *)

Inductive Outcome (A : Type) : Type :=
  | Resolved (a : A)
  | Rejected (e : Error).
Arguments Resolved {A} a.
Arguments Rejected {A} e.

Definition Async (A : Type) : Type := System -> Outcome A * System.

Definition ret {A} (a : A) : Async A := fun s => (Resolved a, s).
Definition throw {A} (e : Error) : Async A := fun s => (Rejected e, s).

Definition bind {A B} (m : Async A) (k : A -> Async B) : Async B :=
  fun s =>
    match m s with
    | (Resolved a, s') => k a s'
    | (Rejected e, s') => (Rejected e, s')
    end.

Definition try_catch {A} (m : Async A) (h : Error -> Async A) : Async A :=
  fun s =>
    match m s with
    | (Resolved a, s') => (Resolved a, s')
    | (Rejected e, s') => h e s'
    end.

Notation "'let!' x ':=' m 'in' k" := (bind m (fun x => k))
  (at level 10, x name, m at level 100, k at level 200).
Notation "'run!' m 'in' k" := (bind m (fun _ => k))
  (at level 10, m at level 100, k at level 200).

(** [await] of a promise whose settlement is already known. *)
Definition await {A} (o : Outcome A) : Async A := fun s => (o, s).

(** A database call that the driver may refuse. *)
Definition guard (fault : option Error) : Async unit :=
  match fault with
  | Some e => throw e
  | None => ret tt
  end.

(** [console.log(e)] and [console.error(..., e)]. *)
Definition console_log (e : Error) : Async unit :=
  fun s => (Resolved tt,
            mkSystem (qrQueue s) (QRCodeModel s) (next_id s) (console s ++ [e])).

(** ** The outside world during one invocation *)

Inductive Image : Type := ImageFile (path : string).

Inductive Drawing : Type :=
  | DrawQR (text dark light : string) (width : Z) (errorCorrectionLevel : string)
  | DrawImage (image : Image) (dx dy dw dh : Z).

Record Canvas : Type := mkCanvas {
  canvas_width : Z;
  canvas_height : Z;
  drawn : list Drawing;
}.

Inductive Buffer : Type := Png (c : Canvas).

(** What the callback of [cloudinary.uploader.upload_stream] receives. *)
Inductive UploadCallback : Type :=
  | upload_error (error : Error)
  | upload_result (url : string).

Record World : Type := mkWorld {
  uuidv4 : string;
  qrcode_fault : string -> option Error;
  loadImage : string -> Outcome Image;
  upload_stream : Buffer -> UploadCallback;
  save_fault : option Error;
  findOne_fault : option Error;
  updateOne_fault : option Error;
  find_fault : option Error;
  countDocuments_fault : option Error;
  deleteMany_fault : option Error;
}.

(** ** Rendering and upload *)

Definition createCanvas (w h : Z) : Canvas := mkCanvas w h [].

Definition toCanvas (w : World) (canvas : Canvas) (text dark light : string)
    (width : Z) (level : string) : Async Canvas :=
  run! guard (qrcode_fault w text) in
  ret (mkCanvas (canvas_width canvas) (canvas_height canvas)
         (drawn canvas ++ [DrawQR text dark light width level])).

Definition drawImage (canvas : Canvas) (image : Image) (dx dy dw dh : Z) : Canvas :=
  mkCanvas (canvas_width canvas) (canvas_height canvas)
    (drawn canvas ++ [DrawImage image dx dy dw dh]).

Definition toBuffer (canvas : Canvas) : Buffer := Png canvas.

Definition generateCustomQRCode (w : World) (text : string) : Async Buffer :=
  let canvas := createCanvas 300 300 in
  let! canvas := toCanvas w canvas text "#facb05" "#044c73" 300 "H" in
  let! logo := await (loadImage w "momo.png") in
  let logoSize := 60 in
  let logoPosition := (canvas_width canvas - logoSize) / 2 in
  let canvas := drawImage canvas logo logoPosition logoPosition logoSize logoSize in
  ret (toBuffer canvas).

Definition uploadToCloudinary (w : World) (buffer : Buffer) : Async string :=
  match upload_stream w buffer with
  | upload_error error => throw error
  | upload_result url => ret url
  end.

(** ** The [QRCode] collection *)

(** [new QRCodeModel({ uuid, s3URL })]: the schema defaults fill the other
    fields and a fresh [_id] is drawn. *)
Definition new_QRCodeModel (uuid s3URL : string) : Async QRCode :=
  fun s =>
    (Resolved (mkQRCode (next_id s) uuid s3URL "" "" "" false),
     mkSystem (qrQueue s) (QRCodeModel s) (S (next_id s)) (console s)).

Definition save (w : World) (doc : QRCode) : Async unit :=
  run! guard (save_fault w) in
  fun s => (Resolved tt, with_docs (QRCodeModel s ++ [doc]) s).

(** The first document, in the collection's natural order, whose [uuid] is
    [id]. *)
Fixpoint find_first (id : string) (l : list QRCode) : option QRCode :=
  match l with
  | [] => None
  | d :: l' => if decide (uuid d = id) then Some d else find_first id l'
  end.

(** [QRCodeModel.findOne({ uuid: id })] *)
Definition findOne (w : World) (id : string) : Async (option QRCode) :=
  run! guard (findOne_fault w) in
  fun s => (Resolved (find_first id (QRCodeModel s)), s).

(** The update document of [/activate]. *)
Definition set_activation (fn ln an : string) (d : QRCode) : QRCode :=
  mkQRCode (doc_id d) (uuid d) (s3URL d) fn ln an true.

(** Rewrites the first document whose [_id] is [oid], if there is one. *)
Fixpoint update_first (oid : ObjectId) (f : QRCode -> QRCode) (l : list QRCode)
    : list QRCode :=
  match l with
  | [] => []
  | d :: l' =>
      if decide (doc_id d = oid) then f d :: l' else d :: update_first oid f l'
  end.

(** [doc.updateOne({ isActivated: true, firstName, lastName, accountNumber })]:
    one update of the stored document that has the [_id] of [doc]. *)
Definition updateOne (w : World) (doc : QRCode) (fn ln an : string) : Async unit :=
  run! guard (updateOne_fault w) in
  fun s =>
    (Resolved tt,
     with_docs (update_first (doc_id doc) (set_activation fn ln an) (QRCodeModel s)) s).

Definition skip_must_be_non_negative : Error := "Skip value must be non-negative".

(** The cursor limit: [0] means no limit, a negative limit is its absolute
    value. *)
Definition apply_limit (limit : Z) (l : list QRCode) : list QRCode :=
  if limit =? 0 then l else take (Z.to_nat (Z.abs limit)) l.

(** [QRCodeModel.find({}).limit(limit).skip(skip).exec()]: the server skips
    first and limits afterwards, in the collection's natural order, and refuses
    a negative skip. *)
Definition find_limit_skip (w : World) (limit skip : Z) : Async (list QRCode) :=
  run! guard (find_fault w) in
  if skip <? 0 then throw skip_must_be_non_negative
  else fun s => (Resolved (apply_limit limit (drop (Z.to_nat skip) (QRCodeModel s))), s).

Definition countDocuments (w : World) : Async Z :=
  run! guard (countDocuments_fault w) in
  fun s => (Resolved (Z.of_nat (length (QRCodeModel s))), s).

(** [QRCodeModel.deleteMany({})], resolving to the [deletedCount]. *)
Definition deleteMany (w : World) : Async Z :=
  run! guard (deleteMany_fault w) in
  fun s => (Resolved (Z.of_nat (length (QRCodeModel s))), with_docs [] s).

(** ** HTTP responses *)

Inductive Json : Type :=
  | JMessage (message : string)
  | JListing (currentPage totalDocs totalPages : Z) (qr : list QRCode)
  | JDocument (doc : option QRCode)
  | JDeleted (message : string) (deletedCount : Z)
  | JServerError (message : string) (error : Error).

Record Response : Type := mkResponse {
  status : Z;
  json : Json;
}.

(** [res.json(body)] and [res.status(code).json(body)]. *)
Definition res_json (body : Json) : Response := mkResponse 200 body.
Definition res_status_json (code : Z) (body : Json) : Response := mkResponse code body.

(** ** The queue processor *)

Record JobResult : Type := mkJobResult {
  result_uuid : string;
  result_s3URL : string;
}.

(** The [try] block of the callback given to [qrQueue.process]. *)
Definition process_try (w : World) (job : Job) : Async (option JobResult) :=
  let uuid := uuidv4 w in
  let text := "https://swartjide.com/?uuid=" +:+ uuid in
  let! buffer := generateCustomQRCode w text in
  let! cloudinaryLink := uploadToCloudinary w buffer in
  let! qrEntry := new_QRCodeModel uuid cloudinaryLink in
  run! save w qrEntry in
  ret (Some (mkJobResult uuid cloudinaryLink)).

(** The callback given to [qrQueue.process].  It resolves to the returned
    object, or to [None] for [undefined] when the [catch] branch ran. *)
Definition process (w : World) (job : Job) : Async (option JobResult) :=
  try_catch (process_try w job)
    (fun error =>
     run! console_log error in
     ret None).

(** ** [POST /generateQR] *)

Definition MAX_QR_COUNT : Z := 100.

(** [await qrQueue.add({})] *)
Definition qrQueue_add (d : JobData) : Async unit :=
  fun s => (Resolved tt, with_queue (queue_add d (qrQueue s)) s).

(** [for (let i = ...; i < count; i++) { await qrQueue.add({}); }] *)
Equations? for_add (i count : Z) : Async unit by wf (Z.to_nat (count - i)) lt :=
  for_add i count :=
    if decide (i < count)
    then run! qrQueue_add EmptyObject in for_add (i + 1) count
    else ret tt.
Proof. lia. Qed.

Definition generation_in_process (count : Z) : string :=
  pretty count +:+ " QR Code(s) generation in process".

Definition post_generateQR (body_count : JsValue) : Async Response :=
  let count := Z.min (js_or body_count 1) MAX_QR_COUNT in
  run! for_add 0 count in
  ret (res_json (JMessage (generation_in_process count))).

(** ** [POST /activate] *)

Record ActivateBody : Type := mkActivateBody {
  body_id : option string;
  body_firstName : option string;
  body_lastName : option string;
  body_accountNumber : option string;
}.

Definition all_fields_required : string :=
  "All fields (id, firstName, lastName, accountNumber) are required.".

Definition post_activate (w : World) (body : ActivateBody) : Async Response :=
  let id := body_id body in
  let firstName := body_firstName body in
  let lastName := body_lastName body in
  let accountNumber := body_accountNumber body in
  if js_not id || js_not firstName || js_not lastName || js_not accountNumber
  then ret (res_status_json 400 (JMessage all_fields_required))
  else
    try_catch
      (let! qrModel := findOne w (field id) in
       match qrModel with
       | None => ret (res_status_json 404 (JMessage "QR Code not found."))
       | Some qrModel =>
           run! updateOne w qrModel (field firstName) (field lastName)
                  (field accountNumber) in
           ret (res_json (JMessage "Activation successful"))
       end)
      (fun error =>
       run! console_log error in
       ret (res_status_json 500 (JMessage "Server error"))).

(** ** [GET /generateQR] *)

Record ListQuery : Type := mkListQuery {
  query_page : option string;
  query_limit : option string;
}.

Definition list_page (q : ListQuery) : Z := js_or (parseInt (query_page q)) 1.
Definition list_limit (q : ListQuery) : Z := js_or (parseInt (query_limit q)) 10.
Definition list_skip (q : ListQuery) : Z := (list_page q - 1) * list_limit q.

Definition get_generateQR (w : World) (q : ListQuery) : Async Response :=
  let page := list_page q in
  let limit := list_limit q in
  let skip := list_skip q in
  try_catch
    (let! qr := find_limit_skip w limit skip in
     let! totalDocs := countDocuments w in
     let totalPages := ceil_div totalDocs limit in
     ret (res_json (JListing page totalDocs totalPages qr)))
    (fun error =>
     ret (res_status_json 500 (JServerError "Server error" error))).

(** ** [POST /info] and [DELETE /qrCodes] *)

(** There is no [try] here: a rejected lookup rejects the handler.  The body
    is taken to carry an [id] string. *)
Definition post_info (w : World) (id : string) : Async Response :=
  let! qrModel := findOne w id in
  ret (res_json (JDocument qrModel)).

Definition delete_qrCodes (w : World) : Async Response :=
  try_catch
    (let! deletedCount := deleteMany w in
     ret (res_json (JDeleted "All QR codes deleted successfully." deletedCount)))
    (fun error =>
     run! console_log error in
     ret (res_status_json 500 (JServerError "Server error" error))).

(** ** Runs of the system *)

(** One handler invocation, or the worker taking the job at the head of the
    queue. *)
Inductive step : System -> System -> Prop :=
  | step_post_generateQR count s :
      step s (post_generateQR count s).2
  | step_process w job q s :
      qrQueue s = job :: q ->
      step s (process w job (with_queue q s)).2
  | step_post_activate w body s :
      step s (post_activate w body s).2
  | step_get_generateQR w q s :
      step s (get_generateQR w q s).2
  | step_post_info w id s :
      step s (post_info w id s).2
  | step_delete_qrCodes w s :
      step s (delete_qrCodes w s).2.

Inductive steps : System -> System -> Prop :=
  | steps_refl s : steps s s
  | steps_then s1 s2 s3 : steps s1 s2 -> step s2 s3 -> steps s1 s3.

Definition reachable (s : System) : Prop := steps initial s.

(** A world in which nothing fails: the collaborators answer and the
    database accepts every call. *)
Definition quiet (id url : string) : World :=
  mkWorld id (fun _ => None) (fun p => Resolved (ImageFile p))
    (fun _ => upload_result url) None None None None None None.

(** The payload encoded for the identifier drawn in [w]. *)
Definition payload (w : World) : string := "https://swartjide.com/?uuid=" +:+ uuidv4 w.

(** [k] jobs were appended to the queue between [s] and [s']. *)
Definition jobs_added (s s' : System) (k : nat) : Prop :=
  qrQueue s' = qrQueue s ++ replicate k (mkJob EmptyObject).

(** The four fields of an activation request are present and non-empty. *)
Definition fields_present (b : ActivateBody) : Prop :=
  js_not (body_id b) = false /\ js_not (body_firstName b) = false /\
  js_not (body_lastName b) = false /\ js_not (body_accountNumber b) = false.

(** A world in which the remote store rejects every upload with [e]. *)
Definition upload_down (id : string) (e : Error) : World :=
  mkWorld id (fun _ => None) (fun p => Resolved (ImageFile p))
    (fun _ => upload_error e) None None None None None None.

(** The stage at which the [try] block of [process] fails, with its error. *)
Inductive job_failure (w : World) (s : System) (e : Error) : Prop :=
  | render_failed :
      (generateCustomQRCode w (payload w) s).1 = Rejected e ->
      job_failure w s e
  | upload_failed buffer :
      (generateCustomQRCode w (payload w) s).1 = Resolved buffer ->
      upload_stream w buffer = upload_error e ->
      job_failure w s e
  | save_failed buffer url :
      (generateCustomQRCode w (payload w) s).1 = Resolved buffer ->
      upload_stream w buffer = upload_result url ->
      save_fault w = Some e ->
      job_failure w s e.

(** The update that an activation request applies to the document it found. *)
Definition activation_of (b : ActivateBody) : QRCode -> QRCode :=
  set_activation (field (body_firstName b)) (field (body_lastName b))
    (field (body_accountNumber b)).

Definition activation_successful : Response :=
  res_json (JMessage "Activation successful").
Definition not_found : Response :=
  res_status_json 404 (JMessage "QR Code not found.").
Definition bad_request : Response :=
  res_status_json 400 (JMessage all_fields_required).

(** No document of the collection carries the identifier [id]. *)
Definition unknown_id (id : string) (s : System) : Prop :=
  forall d, d ∈ QRCodeModel s -> uuid d <> id.

(** Sample data used to exercise the statements below. *)
Definition sample_record : QRCode :=
  mkQRCode 0%nat "u1" "http://res.cloudinary.com/qr/u1.png" "" "" "" false.
Definition sample_system : System := mkSystem [] [sample_record] 1%nat [].
Definition ada : ActivateBody :=
  mkActivateBody (Some "u1") (Some "Ada") (Some "Lovelace") (Some "001").
Definition grace : ActivateBody :=
  mkActivateBody (Some "u1") (Some "Grace") (Some "Hopper") (Some "002").
Definition only_id : ActivateBody :=
  mkActivateBody (Some "nope") None None None.

(** The parsed parameter makes [||] take its right operand: it is [NaN]
    or zero. *)
Definition falls_back (v : JsValue) : bool :=
  match v with
  | Num n => n =? 0
  | NaN | Undefined => true
  end.

Definition is_negative (v : JsValue) : bool :=
  match v with
  | Num n => n <? 0
  | NaN | Undefined => false
  end.

Definition numbered (n : nat) : QRCode :=
  mkQRCode n ("u" +:+ pretty n) ("http://res.cloudinary.com/qr/" +:+ pretty n)
    "" "" "" false.

(** A system whose collection holds 25 records. *)
Definition sample_25 : System := mkSystem [] (numbered <$> seq 0 25) 25%nat [].

(** ** Invariants of the collection *)

Definition identity_empty (d : QRCode) : Prop :=
  firstName d = "" /\ lastName d = "" /\ accountNumber d = "".

Definition identity_set (d : QRCode) : Prop :=
  firstName d <> "" /\ lastName d <> "" /\ accountNumber d <> "".

(** A record is either not activated with no identity at all, or activated
    with a complete identity. *)
Definition identity_consistent (d : QRCode) : Prop :=
  (isActivated d = false /\ identity_empty d) \/
  (isActivated d = true /\ identity_set d).

(** Every stored [_id] was drawn before, and no two documents share one. *)
Definition ids_fresh (s : System) : Prop :=
  (forall d, d ∈ QRCodeModel s -> (doc_id d < next_id s)%nat) /\
  NoDup (doc_id <$> QRCodeModel s).

(** What one step can do to the collection. *)
Inductive effect (s s' : System) : Prop :=
  | effect_none :
      QRCodeModel s' = QRCodeModel s ->
      (next_id s <= next_id s')%nat ->
      effect s s'
  | effect_insert id url :
      QRCodeModel s' = QRCodeModel s ++ [mkQRCode (next_id s) id url "" "" "" false] ->
      next_id s' = S (next_id s) ->
      effect s s'
  | effect_activate d b :
      fields_present b ->
      d ∈ QRCodeModel s ->
      QRCodeModel s' = update_first (doc_id d) (activation_of b) (QRCodeModel s) ->
      next_id s' = next_id s ->
      effect s s'
  | effect_clear :
      QRCodeModel s' = [] ->
      next_id s' = next_id s ->
      effect s s'.

(** A short run: one code requested, generated, then activated. *)
Definition u1_world : World := quiet "u1" "http://res.cloudinary.com/qr/u1.png".
Definition one_requested : System := (post_generateQR (Num 1) initial).2.
Definition one_generated : System :=
  (process u1_world (mkJob EmptyObject) (with_queue [] one_requested)).2.
Definition one_activated : System := (post_activate u1_world ada one_generated).2.

(** ** Further vocabulary *)

(** The worker running one job per world of [ws], in order. *)
Definition run_jobs (ws : list World) (s : System) : System :=
  foldl (fun s w => (process w (mkJob EmptyObject) s).2) s ws.

(** The record that a successful job of world [w] stores in state [s]. *)
Definition generated (w : World) (url : string) (s : System) : QRCode :=
  mkQRCode (next_id s) (uuidv4 w) url "" "" "" false.

(** The handler resolved and sent a response with status [code]. *)
Definition answered (o : Outcome Response * System) (code : Z) : Prop :=
  exists body, o.1 = Resolved (mkResponse code body).

(** A world whose database refuses every call with [e]. *)
Definition db_down (e : Error) : World :=
  mkWorld "u9" (fun _ => None) (fun p => Resolved (ImageFile p))
    (fun _ => upload_result "http://res.cloudinary.com/qr/u9.png")
    (Some e) (Some e) (Some e) (Some e) (Some e) (Some e).

(** The records carried by the answer of a listing, none when the answer is
    not a listing. *)
Definition listed (o : Outcome Response * System) : list QRCode :=
  match o.1 with
  | Resolved (mkResponse _ (JListing _ _ _ qr)) => qr
  | _ => []
  end.

(** The query strings [?page=1&limit=10], [?page=2&limit=10] and
    [?page=3&limit=10]. *)
Definition three_pages (k : nat) : ListQuery :=
  mkListQuery (Some match k with 0%nat => "1" | 1%nat => "2" | _ => "3" end)
    (Some "10").



(** * Properties *)

(** ** The producer loop *)

Lemma for_add_spec (n : nat) : forall (i count : Z) (s : System),
  Z.to_nat (count - i) = n ->
  for_add i count s =
    (Resolved tt, with_queue (qrQueue s ++ replicate n (mkJob EmptyObject)) s).
Proof.
  induction n as [|n IH]; intros i count s Hn; rewrite for_add_equation_1.
  - destruct (decide (i < count)) as [Hlt|Hge]; [lia|].
    destruct s; unfold ret, with_queue; cbn. by rewrite app_nil_r.
  - destruct (decide (i < count)) as [Hlt|Hge]; [|lia].
    unfold bind, qrQueue_add. rewrite (IH (i + 1) count) by lia.
    destruct s; unfold with_queue, queue_add; cbn.
    by rewrite <- app_assoc.
Qed.

Lemma post_generateQR_spec (v : JsValue) (s : System) :
  let count := Z.min (js_or v 1) MAX_QR_COUNT in
  post_generateQR v s =
    (Resolved (res_json (JMessage (generation_in_process count))),
     with_queue (qrQueue s ++ replicate (Z.to_nat count) (mkJob EmptyObject)) s).
Proof.
  intros count. unfold post_generateQR, bind. fold count.
  rewrite (for_add_spec (Z.to_nat count)) by (f_equal; lia).
  reflexivity.
Qed.

(** C1. A generation request with an integer count between 1 and 100
    enqueues exactly that many jobs, a count above 100 enqueues exactly 100,
    and a request without a count enqueues exactly one. *)
Theorem post_generateQR_enqueues (s : System) :
  (forall n : Z, 1 <= n <= 100 ->
     jobs_added s (post_generateQR (Num n) s).2 (Z.to_nat n)) /\
  (forall n : Z, 100 < n ->
     jobs_added s (post_generateQR (Num n) s).2 100) /\
  jobs_added s (post_generateQR Undefined s).2 1.
Proof.
  unfold jobs_added. split; [|split]; intros; rewrite post_generateQR_spec; cbn.
  - destruct (Z.eqb_spec n 0); [lia|].
    unfold MAX_QR_COUNT. by rewrite Z.min_l by lia.
  - destruct (Z.eqb_spec n 0); [lia|].
    unfold MAX_QR_COUNT. by rewrite Z.min_r by lia.
  - reflexivity.
Qed.

Lemma post_generateQR_enqueues_witness :
  1 <= 3 <= 100 /\
  jobs_added initial (post_generateQR (Num 3) initial).2 3.
Proof.
  split; [lia|].
  apply (proj1 (post_generateQR_enqueues initial) 3). lia.
Defined.

(** C10. A count of 0 is treated like an absent count and enqueues exactly
    one job; a negative count enqueues no job, and the response is still the
    success message, reporting that count. *)
Theorem post_generateQR_zero_and_negative (s : System) :
  jobs_added s (post_generateQR (Num 0) s).2 1 /\
  (forall n : Z, n < 0 ->
     jobs_added s (post_generateQR (Num n) s).2 0 /\
     (post_generateQR (Num n) s).1 =
       Resolved (res_json (JMessage (generation_in_process n)))).
Proof.
  unfold jobs_added. split; [|intros n Hn]; rewrite post_generateQR_spec; cbn.
  - reflexivity.
  - destruct (Z.eqb_spec n 0); [lia|].
    unfold MAX_QR_COUNT. rewrite Z.min_l by lia.
    by replace (Z.to_nat n) with 0%nat by lia.
Qed.

Lemma post_generateQR_zero_and_negative_witness :
  -5 < 0 /\
  jobs_added initial (post_generateQR (Num (-5)) initial).2 0 /\
  (post_generateQR (Num (-5)) initial).1 =
    Resolved (res_json (JMessage "-5 QR Code(s) generation in process")).
Proof.
  split; [lia|].
  apply (proj2 (post_generateQR_zero_and_negative initial) (-5)). lia.
Defined.

(** ** The queue processor *)

Lemma generateCustomQRCode_state (w : World) (text : string) (s : System) :
  (generateCustomQRCode w text s).2 = s.
Proof.
  unfold generateCustomQRCode, toCanvas, bind, guard, await, ret, throw.
  destruct (qrcode_fault w text); [done|].
  by destruct (loadImage w "momo.png").
Qed.

Ltac render_cases w s :=
  unfold process, try_catch, process_try, bind;
  change ("https://swartjide.com/?uuid=" +:+ uuidv4 w) with (payload w);
  pose proof (generateCustomQRCode_state w (payload w) s) as Hst;
  destruct (generateCustomQRCode w (payload w) s) as [[buf|err] s0];
  cbn in Hst; subst s0.

(** C2. When the upload step of a job fails, no record is persisted: the
    collection after the job is the collection before it. *)
Theorem upload_failure_persists_nothing
    (w : World) (job : Job) (s : System) (buffer : Buffer) (e : Error) :
  (generateCustomQRCode w (payload w) s).1 = Resolved buffer ->
  upload_stream w buffer = upload_error e ->
  QRCodeModel (process w job s).2 = QRCodeModel s.
Proof.
  intros Hrender Hupload. revert Hrender. render_cases w s; cbn; [|done].
  intros [= ->]. unfold uploadToCloudinary. by rewrite Hupload.
Qed.

Lemma upload_failure_persists_nothing_witness :
  let w := upload_down "u1" "rejected" in
  let buffer :=
    Png (mkCanvas 300 300
           [DrawQR "https://swartjide.com/?uuid=u1" "#facb05" "#044c73" 300 "H";
            DrawImage (ImageFile "momo.png") 120 120 60 60]) in
  (generateCustomQRCode w (payload w) initial).1 = Resolved buffer /\
  upload_stream w buffer = upload_error "rejected" /\
  QRCodeModel (process w (mkJob EmptyObject) initial).2 = QRCodeModel initial.
Proof.
  cbn zeta. split; [reflexivity|]. split; [reflexivity|].
  eapply (upload_failure_persists_nothing (upload_down "u1" "rejected"));
    reflexivity.
Defined.

(** C5 as stated fails: a job whose upload is rejected does not end as a
    failure carrying the error; the callback resolves with no result. *)
Lemma swallowed_job_error_counterexample :
  let w := upload_down "u1" "rejected" in
  let job := mkJob EmptyObject in
  job_failure w initial "rejected" /\
  (process w job initial).1 = Resolved None /\
  forall e, (process w job initial).1 <> Rejected e.
Proof.
  cbn zeta. split; [|split].
  - by eapply upload_failed.
  - reflexivity.
  - by intros e.
Qed.

(** C5, amended. When rendering, upload or persistence fails, the error is
    written to the console, the callback resolves with no result instead of
    rejecting, no record is persisted and the job is not put back on the
    queue. *)
Theorem failed_job_is_logged_and_resolves
    (w : World) (job : Job) (s : System) (e : Error) :
  job_failure w s e ->
  (process w job s).1 = Resolved None /\
  console (process w job s).2 = console s ++ [e] /\
  QRCodeModel (process w job s).2 = QRCodeModel s /\
  qrQueue (process w job s).2 = qrQueue s.
Proof.
  intros [Hrender|buffer Hrender Hupload|buffer url Hrender Hupload Hsave];
    revert Hrender; render_cases w s; cbn; try done; intros [= ->]; try done.
  - unfold uploadToCloudinary. by rewrite Hupload.
  - unfold uploadToCloudinary, save, guard, bind. by rewrite Hupload, Hsave.
Qed.

Lemma failed_job_is_logged_and_resolves_witness :
  let w := upload_down "u1" "rejected" in
  let job := mkJob EmptyObject in
  job_failure w initial "rejected" /\
  (process w job initial).1 = Resolved None /\
  console (process w job initial).2 = console initial ++ ["rejected"] /\
  QRCodeModel (process w job initial).2 = QRCodeModel initial /\
  qrQueue (process w job initial).2 = qrQueue initial.
Proof.
  cbn zeta.
  assert (H : job_failure (upload_down "u1" "rejected") initial "rejected")
    by (by eapply upload_failed).
  split; [exact H|].
  exact (failed_job_is_logged_and_resolves (upload_down "u1" "rejected")
           (mkJob EmptyObject) initial "rejected" H).
Defined.

(** ** Activation *)

Lemma find_first_None (id : string) (l : list QRCode) :
  find_first id l = None <-> forall d, d ∈ l -> uuid d <> id.
Proof.
  induction l as [|d l IH]; cbn.
  - split; [|done]. intros _ d Hd. by apply not_elem_of_nil in Hd.
  - destruct (decide (uuid d = id)) as [Heq|Hne].
    + split; [done|]. intros H. destruct (H d); [left|done].
    + rewrite IH. split.
      * intros H d' [->|Hd']%elem_of_cons; auto.
      * intros H d' Hd'. apply H. by right.
Qed.

Lemma find_first_Some (id : string) (l : list QRCode) (d : QRCode) :
  find_first id l = Some d -> d ∈ l /\ uuid d = id.
Proof.
  induction l as [|d' l IH]; cbn; [done|].
  destruct (decide (uuid d' = id)) as [Heq|Hne].
  - intros [= ->]. split; [left|done].
  - intros [Hin Hid]%IH. split; [by right|done].
Qed.

(** An update that keeps [_id] and [uuid] does not move what a lookup by
    [uuid] finds. *)
Lemma find_first_update_first (id : string) (k : ObjectId) (f : QRCode -> QRCode)
    (l : list QRCode) :
  (forall d, doc_id (f d) = doc_id d /\ uuid (f d) = uuid d) ->
  doc_id <$> find_first id (update_first k f l) = doc_id <$> find_first id l.
Proof.
  intros Hf. induction l as [|d l IH]; cbn; [done|].
  destruct (decide (doc_id d = k)) as [Hk|Hk]; cbn.
  - destruct (Hf d) as [Hid Hu]. rewrite Hu.
    destruct (decide (uuid d = id)); cbn; [by rewrite Hid|done].
  - destruct (decide (uuid d = id)); cbn; [done|apply IH].
Qed.

Lemma update_first_twice (k : ObjectId) (f g : QRCode -> QRCode) (l : list QRCode) :
  (forall d, doc_id (f d) = doc_id d) ->
  (forall d, g (f d) = g d) ->
  update_first k g (update_first k f l) = update_first k g l.
Proof.
  intros Hid Hgf. induction l as [|d l IH]; cbn; [done|].
  destruct (decide (doc_id d = k)) as [Hk|Hk]; cbn.
  - rewrite Hid. destruct (decide (doc_id d = k)); [|done]. by rewrite Hgf.
  - destruct (decide (doc_id d = k)); [done|]. by rewrite IH.
Qed.

Lemma fields_present_test (b : ActivateBody) :
  fields_present b ->
  js_not (body_id b) || js_not (body_firstName b) || js_not (body_lastName b)
    || js_not (body_accountNumber b) = false.
Proof. by intros (-> & -> & -> & ->). Qed.

Lemma fields_absent_test (b : ActivateBody) :
  ~ fields_present b ->
  js_not (body_id b) || js_not (body_firstName b) || js_not (body_lastName b)
    || js_not (body_accountNumber b) = true.
Proof.
  unfold fields_present. intros H.
  destruct (js_not (body_id b)), (js_not (body_firstName b)),
    (js_not (body_lastName b)), (js_not (body_accountNumber b)); try done.
  by destruct H.
Qed.

Lemma fields_present_dec (b : ActivateBody) : Decision (fields_present b).
Proof. unfold fields_present. apply _. Qed.

Lemma post_activate_bad_request (w : World) (b : ActivateBody) (s : System) :
  ~ fields_present b ->
  post_activate w b s = (Resolved bad_request, s).
Proof.
  intros H. unfold post_activate. by rewrite (fields_absent_test b H).
Qed.

Lemma post_activate_not_found (w : World) (b : ActivateBody) (s : System) :
  fields_present b ->
  findOne_fault w = None ->
  find_first (field (body_id b)) (QRCodeModel s) = None ->
  post_activate w b s = (Resolved not_found, s).
Proof.
  intros Hb Hw Hfind. unfold post_activate. rewrite (fields_present_test b Hb).
  unfold try_catch, bind, findOne, guard. rewrite Hw. cbn. by rewrite Hfind.
Qed.

Lemma post_activate_found (w : World) (b : ActivateBody) (s : System) (d : QRCode) :
  fields_present b ->
  findOne_fault w = None ->
  updateOne_fault w = None ->
  find_first (field (body_id b)) (QRCodeModel s) = Some d ->
  post_activate w b s =
    (Resolved activation_successful,
     with_docs (update_first (doc_id d) (activation_of b) (QRCodeModel s)) s).
Proof.
  intros Hb Hw Hu Hfind. unfold post_activate. rewrite (fields_present_test b Hb).
  unfold try_catch, bind, findOne, updateOne, guard. rewrite Hw. cbn.
  rewrite Hfind. cbn. by rewrite Hu.
Qed.

(** What a successful activation went through. *)
Lemma post_activate_success (w : World) (b : ActivateBody) (s : System) :
  (post_activate w b s).1 = Resolved activation_successful ->
  fields_present b /\ findOne_fault w = None /\ updateOne_fault w = None /\
  exists d, find_first (field (body_id b)) (QRCodeModel s) = Some d.
Proof.
  destruct (fields_present_dec b) as [Hb|Hb];
    [|by rewrite post_activate_bad_request].
  unfold post_activate. rewrite (fields_present_test b Hb).
  unfold try_catch, bind, findOne, updateOne, guard.
  destruct (findOne_fault w); cbn; [done|].
  destruct (find_first _ _) as [d|]; cbn; [|done].
  destruct (updateOne_fault w); cbn; [done|]. eauto 6.
Qed.

(** Every activation request either leaves the collection as it was or
    rewrites one document with the submitted identity; nothing else in the
    state changes apart from the console. *)
Lemma post_activate_effect (w : World) (b : ActivateBody) (s : System) :
  let s' := (post_activate w b s).2 in
  next_id s' = next_id s /\ qrQueue s' = qrQueue s /\
  (QRCodeModel s' = QRCodeModel s \/
   exists d, fields_present b /\
     find_first (field (body_id b)) (QRCodeModel s) = Some d /\
     QRCodeModel s' = update_first (doc_id d) (activation_of b) (QRCodeModel s)).
Proof.
  destruct (fields_present_dec b) as [Hb|Hb];
    [|rewrite post_activate_bad_request by done; cbn; auto].
  unfold post_activate. rewrite (fields_present_test b Hb).
  unfold try_catch, bind, findOne, updateOne, guard.
  destruct (findOne_fault w); cbn; [auto|].
  destruct (find_first _ _) as [d|] eqn:Hfind; cbn; [|auto].
  destruct (updateOne_fault w); cbn; [auto|].
  split; [done|]. split; [done|]. right. by exists d.
Qed.

Lemma with_docs_with_docs (l l' : list QRCode) (s : System) :
  with_docs l (with_docs l' s) = with_docs l s.
Proof. done. Qed.

Lemma activation_of_keeps (b : ActivateBody) (d : QRCode) :
  doc_id (activation_of b d) = doc_id d /\ uuid (activation_of b d) = uuid d.
Proof. done. Qed.

(** C3. Activating the same record twice follows the overwrite policy on
    every input: once a first activation has succeeded, a second activation
    of the same id with all four fields present succeeds as well, the state
    it leaves is the state that the second request alone would have left, and
    repeating the first request leaves the state of the first. *)
Theorem activate_twice_overwrites
    (w1 w2 : World) (b1 b2 : ActivateBody) (s : System) :
  fields_present b2 ->
  body_id b2 = body_id b1 ->
  (post_activate w1 b1 s).1 = Resolved activation_successful ->
  findOne_fault w2 = None ->
  updateOne_fault w2 = None ->
  let s1 := (post_activate w1 b1 s).2 in
  (post_activate w2 b2 s1).1 = Resolved activation_successful /\
  (post_activate w2 b2 s1).2 = (post_activate w2 b2 s).2 /\
  (post_activate w2 b1 s1).2 = s1.
Proof.
  intros Hb2 Hid Hfirst Hw2 Hu2 s1.
  destruct (post_activate_success _ _ _ Hfirst) as (Hb1 & Hw1 & Hu1 & d & Hfind).
  assert (Hs1 : s1 = with_docs
            (update_first (doc_id d) (activation_of b1) (QRCodeModel s)) s)
    by (unfold s1; by rewrite (post_activate_found w1 b1 s d)).
  assert (Hfind1 : exists d1,
            find_first (field (body_id b1)) (QRCodeModel s1) = Some d1 /\
            doc_id d1 = doc_id d).
  { pose proof (find_first_update_first (field (body_id b1)) (doc_id d)
                  (activation_of b1) (QRCodeModel s) (activation_of_keeps b1)) as H.
    rewrite Hfind in H. rewrite Hs1. cbn in *.
    destruct (find_first _ (update_first _ _ _)) as [d1|]; [|done].
    exists d1. split; [done|]. by injection H. }
  destruct Hfind1 as (d1 & Hfind1 & Hd1).
  assert (Hfind2 : find_first (field (body_id b2)) (QRCodeModel s1) = Some d1)
    by (by rewrite Hid).
  rewrite (post_activate_found w2 b2 s1 d1) by done.
  rewrite (post_activate_found w2 b2 s d) by (by rewrite ?Hid).
  rewrite (post_activate_found w2 b1 s1 d1) by done.
  rewrite Hd1. cbn. split; [done|]. rewrite Hs1. cbn.
  rewrite !with_docs_with_docs.
  by rewrite !update_first_twice.
Qed.

Lemma activate_twice_overwrites_witness :
  let w := quiet "u2" "http://res.cloudinary.com/qr/u2.png" in
  let s1 := (post_activate w ada sample_system).2 in
  fields_present grace /\
  body_id grace = body_id ada /\
  (post_activate w ada sample_system).1 = Resolved activation_successful /\
  (post_activate w grace s1).1 = Resolved activation_successful /\
  (post_activate w grace s1).2 = (post_activate w grace sample_system).2 /\
  (post_activate w ada s1).2 = s1.
Proof.
  cbn zeta. split; [done|]. split; [done|]. split; [done|].
  apply (activate_twice_overwrites
           (quiet "u2" "http://res.cloudinary.com/qr/u2.png")
           (quiet "u2" "http://res.cloudinary.com/qr/u2.png")
           ada grace sample_system); done.
Defined.

(** C6 as stated fails: a request that names an unknown id but lacks the
    other fields is answered 400, not 404. *)
Lemma activate_unknown_id_counterexample :
  let w := quiet "u2" "http://res.cloudinary.com/qr/u2.png" in
  unknown_id "nope" sample_system /\
  body_id only_id = Some "nope" /\
  (post_activate w only_id sample_system).1 = Resolved bad_request /\
  status bad_request = 400 /\
  (post_activate w only_id sample_system).1 <> Resolved not_found.
Proof.
  cbn zeta. split; [|done].
  intros d [->|Hd]%elem_of_cons; [done|]. by apply not_elem_of_nil in Hd.
Qed.

(** C6, amended. An activation request whose id matches no record never
    changes the state; when its four fields are present and the lookup itself
    is answered, the response is 404, and when a field is missing or empty the
    response is 400. *)
Theorem activate_unknown_id (w : World) (b : ActivateBody) (s : System) :
  unknown_id (field (body_id b)) s ->
  QRCodeModel (post_activate w b s).2 = QRCodeModel s /\
  (fields_present b -> findOne_fault w = None ->
   post_activate w b s = (Resolved not_found, s)) /\
  (~ fields_present b -> post_activate w b s = (Resolved bad_request, s)).
Proof.
  intros Hunknown%find_first_None. split; [|split].
  - destruct (post_activate_effect w b s) as (_ & _ & [H|(d & _ & Hd & _)]);
      [done|congruence].
  - intros Hb Hw. by apply post_activate_not_found.
  - apply post_activate_bad_request.
Qed.

Lemma activate_unknown_id_witness :
  let w := quiet "u2" "http://res.cloudinary.com/qr/u2.png" in
  let b := mkActivateBody (Some "nope") (Some "Ada") (Some "Lovelace") (Some "001") in
  unknown_id "nope" sample_system /\
  fields_present b /\
  findOne_fault w = None /\
  post_activate w b sample_system = (Resolved not_found, sample_system).
Proof.
  cbn zeta.
  assert (H : unknown_id "nope" sample_system).
  { intros d [->|Hd]%elem_of_cons; [done|]. by apply not_elem_of_nil in Hd. }
  split; [exact H|]. split; [done|]. split; [done|].
  apply (activate_unknown_id (quiet "u2" "http://res.cloudinary.com/qr/u2.png")
           (mkActivateBody (Some "nope") (Some "Ada") (Some "Lovelace") (Some "001"))
           sample_system H); done.
Defined.

(** ** Listing *)

Example parseInt_digits : parseInt (Some "25") = Num 25.
Proof. reflexivity. Qed.
Example parseInt_prefix : parseInt (Some "  12px") = Num 12.
Proof. reflexivity. Qed.
Example parseInt_hex : parseInt (Some "0x1f") = Num 31.
Proof. reflexivity. Qed.
Example parseInt_text : parseInt (Some "abc") = NaN.
Proof. reflexivity. Qed.
Example parseInt_empty : parseInt (Some "") = NaN.
Proof. reflexivity. Qed.
Example parseInt_absent : parseInt None = NaN.
Proof. reflexivity. Qed.
Example parseInt_negative : parseInt (Some "-3") = Num (-3).
Proof. reflexivity. Qed.

Lemma js_or_falls_back (v : JsValue) (d : Z) : falls_back v = true -> js_or v d = d.
Proof. destruct v as [| |n]; cbn; try done. by intros ->. Qed.

Lemma js_or_positive (v : JsValue) (d : Z) :
  0 < d -> is_negative v = false -> 0 < js_or v d.
Proof.
  destruct v as [| |n]; cbn; try done. intros Hd Hn.
  destruct (Z.eqb_spec n 0); lia.
Qed.

(** A negative parameter is truthy: [||] keeps it. *)
Lemma js_or_negative (n d : Z) : n < 0 -> js_or (Num n) d = n.
Proof. intros Hn. cbn. destruct (Z.eqb_spec n 0); [lia|done]. Qed.

(** With a negative skip the query is refused and the listing answers 500. *)
Example listing_negative_page_response :
  (get_generateQR u1_world (mkListQuery (Some "-1") None) sample_25).1 =
    Resolved (res_status_json 500
                (JServerError "Server error" skip_must_be_non_negative)).
Proof. reflexivity. Qed.

(** C7 as stated fails: a negative page is not replaced by the default, and
    the skip computed from it is negative. *)
Lemma listing_negative_page_counterexample :
  let q := mkListQuery (Some "-1") None in
  parseInt (query_page q) = Num (-1) /\
  list_page q = -1 /\ list_page q <> 1 /\
  list_skip q = -20 /\ list_skip q < 0.
Proof. cbn zeta. by repeat split. Qed.

(** C7, amended. The page and the limit are 1 and 10 when the parameter is
    absent, is not a number or is zero; when neither parsed value is negative
    the page and the limit used are positive and the skip is not negative. *)
Theorem listing_defaults (q : ListQuery) :
  (query_page q = None -> list_page q = 1) /\
  (query_limit q = None -> list_limit q = 10) /\
  (falls_back (parseInt (query_page q)) = true -> list_page q = 1) /\
  (falls_back (parseInt (query_limit q)) = true -> list_limit q = 10) /\
  (is_negative (parseInt (query_page q)) = false ->
   is_negative (parseInt (query_limit q)) = false ->
   0 < list_page q /\ 0 < list_limit q /\ 0 <= list_skip q).
Proof.
  unfold list_skip, list_page, list_limit.
  refine (conj _ (conj _ (conj _ (conj _ _)))).
  - by intros ->.
  - by intros ->.
  - apply js_or_falls_back.
  - apply js_or_falls_back.
  - intros Hp Hl.
    pose proof (js_or_positive _ 1 eq_refl Hp).
    pose proof (js_or_positive _ 10 eq_refl Hl). nia.
Qed.

Lemma listing_defaults_witness :
  let q := mkListQuery (Some "0") (Some "7") in
  falls_back (parseInt (query_page q)) = true /\
  is_negative (parseInt (query_page q)) = false /\
  is_negative (parseInt (query_limit q)) = false /\
  list_page q = 1 /\
  (0 < list_page q /\ 0 < list_limit q /\ 0 <= list_skip q).
Proof.
  cbn zeta. split; [reflexivity|]. split; [reflexivity|]. split; [reflexivity|].
  pose proof (listing_defaults (mkListQuery (Some "0") (Some "7")))
    as (_ & _ & Hpage & _ & Hsafe).
  split; [apply Hpage; reflexivity|apply Hsafe; reflexivity].
Defined.

(** C8. Over a collection of exactly 25 records, the listing for page 2 with
    limit 10 answers with the 11th to the 20th record in the collection's
    order, a total of 25 and 3 pages, the ceiling of 25 / 10. *)
Theorem list_second_page_of_25 (w : World) (s : System) :
  find_fault w = None ->
  countDocuments_fault w = None ->
  length (QRCodeModel s) = 25%nat ->
  let qr := take 10 (drop 10 (QRCodeModel s)) in
  get_generateQR w (mkListQuery (Some "2") (Some "10")) s =
    (Resolved (res_json (JListing 2 25 3 qr)), s) /\
  ceil_div (Z.of_nat (length (QRCodeModel s))) 10 = 3 /\
  length qr = 10%nat /\
  forall i : nat, (i < 10)%nat -> qr !! i = QRCodeModel s !! (10 + i)%nat.
Proof.
  intros Hfind Hcount Hlen qr. split; [|split; [|split]].
  - unfold get_generateQR, try_catch, bind, find_limit_skip, countDocuments, guard.
    change (list_page _) with 2. change (list_limit _) with 10.
    change (list_skip _) with 10.
    rewrite Hfind, Hcount. cbn. by rewrite Hlen.
  - by rewrite Hlen.
  - unfold qr. rewrite length_take, length_drop, Hlen. done.
  - intros i Hi. unfold qr. by rewrite lookup_take_lt, lookup_drop.
Qed.

Lemma list_second_page_of_25_witness :
  let w := quiet "u2" "http://res.cloudinary.com/qr/u2.png" in
  let qr := take 10 (drop 10 (QRCodeModel sample_25)) in
  length (QRCodeModel sample_25) = 25%nat /\
  get_generateQR w (mkListQuery (Some "2") (Some "10")) sample_25 =
    (Resolved (res_json (JListing 2 25 3 qr)), sample_25) /\
  qr = numbered <$> seq 10 10.
Proof.
  cbn zeta. split; [reflexivity|]. split; [|reflexivity].
  apply (list_second_page_of_25 (quiet "u2" "http://res.cloudinary.com/qr/u2.png")
           sample_25); reflexivity.
Defined.

(** ** Steps and their effect on the collection *)

Lemma get_generateQR_state (w : World) (q : ListQuery) (s : System) :
  (get_generateQR w q s).2 = s.
Proof.
  unfold get_generateQR, try_catch, bind, find_limit_skip, countDocuments, guard.
  destruct (find_fault w); cbn; [done|].
  destruct (list_skip q <? 0); cbn; [done|].
  by destruct (countDocuments_fault w).
Qed.

Lemma post_info_state (w : World) (id : string) (s : System) :
  (post_info w id s).2 = s.
Proof.
  unfold post_info, bind, findOne, guard. by destruct (findOne_fault w).
Qed.

Lemma process_effect (w : World) (job : Job) (s : System) :
  effect s (process w job s).2.
Proof.
  render_cases w s; cbn; [|by apply effect_none].
  unfold uploadToCloudinary.
  destruct (upload_stream w buf) as [e|url]; cbn; [by apply effect_none|].
  unfold save, guard, bind.
  destruct (save_fault w); cbn.
  - apply effect_none; cbn; [done|lia].
  - by eapply effect_insert.
Qed.

Lemma js_not_false (v : option string) : js_not v = false -> field v <> "".
Proof.
  destruct v as [x|]; cbn; [|done]. by destruct (decide (x = "")).
Qed.

Lemma step_effect (s s' : System) : step s s' -> effect s s'.
Proof.
  intros [count s0|w job q s0 Hq|w b s0|w q s0|w id s0|w s0].
  - rewrite post_generateQR_spec. by apply effect_none.
  - destruct (process_effect w job (with_queue q s0)) as [H1 H2|i u H1 H2|d b Hb Hd H1 H2|H1 H2].
    + by apply effect_none.
    + by eapply effect_insert.
    + by eapply effect_activate.
    + by apply effect_clear.
  - destruct (post_activate_effect w b s0) as (Hn & _ & [H|(d & Hb & Hd & H)]).
    + apply effect_none; [done|lia].
    + apply find_first_Some in Hd as [Hd _]. by eapply effect_activate.
  - rewrite get_generateQR_state. by apply effect_none.
  - rewrite post_info_state. by apply effect_none.
  - unfold delete_qrCodes, try_catch, bind, deleteMany, guard.
    destruct (deleteMany_fault w); cbn; [by apply effect_none|by apply effect_clear].
Qed.

Lemma elem_of_update_first (k : ObjectId) (f : QRCode -> QRCode) (l : list QRCode)
    (d' : QRCode) :
  d' ∈ update_first k f l -> d' ∈ l \/ exists d, d ∈ l /\ d' = f d.
Proof.
  induction l as [|d l IH]; cbn; [by left|].
  destruct (decide (doc_id d = k)).
  - intros [->|H]%elem_of_cons.
    + right. exists d. split; [left|done].
    + left. by right.
  - intros [->|H]%elem_of_cons; [left; left|].
    destruct (IH H) as [Hin|(d0 & Hin & ->)]; [left; by right|].
    right. exists d0. split; [by right|done].
Qed.

Lemma update_first_lookup (k : ObjectId) (f : QRCode -> QRCode) (l : list QRCode)
    (i : nat) (d d' : QRCode) :
  l !! i = Some d -> update_first k f l !! i = Some d' -> d' = d \/ d' = f d.
Proof.
  revert i. induction l as [|x l IH]; intros i; cbn; [done|].
  destruct (decide (doc_id x = k)); destruct i as [|i]; cbn.
  - intros [= ->] [= ->]. by right.
  - intros H1 H2. left. congruence.
  - intros [= ->] [= ->]. by left.
  - apply IH.
Qed.

Lemma update_first_length (k : ObjectId) (f : QRCode -> QRCode) (l : list QRCode) :
  length (update_first k f l) = length l.
Proof.
  induction l as [|x l IH]; cbn; [done|].
  destruct (decide (doc_id x = k)); cbn; by rewrite ?IH.
Qed.

Lemma update_first_ids (k : ObjectId) (f : QRCode -> QRCode) (l : list QRCode) :
  (forall d, doc_id (f d) = doc_id d) ->
  doc_id <$> update_first k f l = doc_id <$> l.
Proof.
  intros Hf. induction l as [|x l IH]; cbn; [done|].
  destruct (decide (doc_id x = k)); cbn; by rewrite ?Hf, ?IH.
Qed.

Lemma activated_identity_set (b : ActivateBody) (d : QRCode) :
  fields_present b ->
  isActivated (activation_of b d) = true /\ identity_set (activation_of b d).
Proof.
  intros (_ & H1 & H2 & H3). split; [done|].
  split; [|split]; cbn; by apply js_not_false.
Qed.

(** ** The identity invariant *)

Lemma effect_identity_consistent (s s' : System) :
  effect s s' ->
  (forall d, d ∈ QRCodeModel s -> identity_consistent d) ->
  forall d, d ∈ QRCodeModel s' -> identity_consistent d.
Proof.
  intros [H1 _|id url H1 _|d0 b Hb _ H1 _|H1 _] Hinv d; rewrite H1.
  - apply Hinv.
  - intros [Hd| ->%list_elem_of_singleton]%elem_of_app; [by apply Hinv|].
    by left.
  - intros [Hd|(d1 & Hd1 & ->)]%elem_of_update_first; [by apply Hinv|].
    right. by apply activated_identity_set.
  - by intros ?%not_elem_of_nil.
Qed.

Lemma reachable_identity_consistent (s : System) :
  reachable s -> forall d, d ∈ QRCodeModel s -> identity_consistent d.
Proof.
  unfold reachable. intros Hrun.
  assert (Hinit : forall d, d ∈ QRCodeModel initial -> identity_consistent d)
    by (by intros d ?%not_elem_of_nil).
  induction Hrun as [|s1 s2 s3 _ IH Hstep]; [done|].
  by eapply effect_identity_consistent; [apply step_effect|apply IH].
Qed.

Lemma identity_consistent_iff (d : QRCode) :
  identity_consistent d -> (identity_empty d <-> isActivated d = false).
Proof.
  intros [[Hf He]|[Ht (Hn & _)]]; split; try done.
  - intros (He & _). congruence.
  - congruence.
Qed.

(** C4. In every reachable state each record has its three identity fields
    all empty exactly when it is not activated, and is then either untouched
    with no identity or activated with a complete one; a new record starts
    with the three fields empty and the flag false; a successful activation
    leaves only records that were already stored or that carry the flag and
    the three fields together. *)
Theorem identity_fields_match_flag :
  (forall s, reachable s ->
     forall d, d ∈ QRCodeModel s ->
       (identity_empty d <-> isActivated d = false) /\ identity_consistent d) /\
  (forall id url s d,
     (new_QRCodeModel id url s).1 = Resolved d ->
     isActivated d = false /\ identity_empty d) /\
  (forall w b s,
     (post_activate w b s).1 = Resolved activation_successful ->
     forall d', d' ∈ QRCodeModel (post_activate w b s).2 ->
       d' ∈ QRCodeModel s \/ (isActivated d' = true /\ identity_set d')).
Proof.
  split; [|split].
  - intros s Hs d Hd.
    pose proof (reachable_identity_consistent s Hs d Hd) as H.
    split; [by apply identity_consistent_iff|done].
  - by intros id url s d [= <-].
  - intros w b s Hok d'.
    destruct (post_activate_success _ _ _ Hok) as (Hb & Hw & Hu & d & Hfind).
    rewrite (post_activate_found w b s d) by done. cbn.
    intros [Hd|(d1 & Hd1 & ->)]%elem_of_update_first; [by left|].
    right. by apply activated_identity_set.
Qed.

Lemma one_generated_reachable : reachable one_generated.
Proof.
  eapply steps_then.
  - eapply steps_then; [apply steps_refl|].
    exact (step_post_generateQR (Num 1) initial).
  - exact (step_process u1_world (mkJob EmptyObject) [] one_requested eq_refl).
Qed.

Lemma one_activated_reachable : reachable one_activated.
Proof.
  eapply steps_then; [apply one_generated_reachable|].
  exact (step_post_activate u1_world ada one_generated).
Qed.

Lemma identity_fields_match_flag_witness :
  let d := mkQRCode 0%nat "u1" "http://res.cloudinary.com/qr/u1.png"
             "Ada" "Lovelace" "001" true in
  reachable one_activated /\
  d ∈ QRCodeModel one_activated /\
  (identity_empty d <-> isActivated d = false) /\ identity_consistent d.
Proof.
  cbn zeta. split; [apply one_activated_reachable|]. split; [left|].
  apply (proj1 identity_fields_match_flag one_activated one_activated_reachable).
  left.
Defined.

(** ** Immutability of the image URL *)

Lemma effect_ids_fresh (s s' : System) : effect s s' -> ids_fresh s -> ids_fresh s'.
Proof.
  intros [H1 H2|id url H1 H2|d0 b Hb _ H1 H2|H1 H2] [Hlt Hnd];
    unfold ids_fresh; rewrite H1.
  - split; [|done]. intros d Hd. specialize (Hlt d Hd). lia.
  - split.
    + intros d [Hd| ->%list_elem_of_singleton]%elem_of_app; cbn; [|lia].
      specialize (Hlt d Hd). lia.
    + rewrite fmap_app. apply NoDup_app. split; [done|]. split; [|apply NoDup_singleton].
      intros k [d [-> Hd]]%list_elem_of_fmap Hk%list_elem_of_singleton.
      cbn in Hk. specialize (Hlt d Hd). lia.
  - rewrite update_first_ids by done. split; [|done].
    intros d [Hd|(d1 & Hd1 & ->)]%elem_of_update_first; rewrite H2; [by apply Hlt|].
    by apply (Hlt d1).
  - split; [by intros d ?%not_elem_of_nil|constructor].
Qed.

Lemma reachable_ids_fresh (s : System) : reachable s -> ids_fresh s.
Proof.
  unfold reachable. intros Hrun.
  assert (Hinit : ids_fresh initial)
    by (split; [by intros d ?%not_elem_of_nil|constructor]).
  induction Hrun as [|s1 s2 s3 _ IH Hstep]; [done|].
  by eapply effect_ids_fresh; [apply step_effect|apply IH].
Qed.

(** Every record present after a run either was drawn during the run or
    descends from a record of the start with the same [_id], [uuid] and
    [s3URL]. *)
Lemma steps_origin (s s' : System) :
  steps s s' ->
  (next_id s <= next_id s')%nat /\
  forall d', d' ∈ QRCodeModel s' -> (doc_id d' < next_id s)%nat ->
    exists d, d ∈ QRCodeModel s /\ doc_id d = doc_id d' /\
              uuid d = uuid d' /\ s3URL d = s3URL d'.
Proof.
  induction 1 as [s|s1 s2 s3 _ [IHn IH] Hstep]; [split; [done|eauto]|].
  destruct (step_effect _ _ Hstep) as [H1 H2|id url H1 H2|d0 b Hb _ H1 H2|H1 H2];
    (split; [lia|]); intros d'; rewrite H1.
  - apply IH.
  - intros [Hd| ->%list_elem_of_singleton]%elem_of_app; [by apply IH|].
    cbn. lia.
  - intros [Hd|(d1 & Hd1 & ->)]%elem_of_update_first; [by apply IH|].
    cbn. intros Hlt. by apply (IH d1).
  - by intros ?%not_elem_of_nil.
Qed.

Lemma NoDup_fmap_elem_eq (l : list QRCode) (d1 d2 : QRCode) :
  NoDup (doc_id <$> l) -> d1 ∈ l -> d2 ∈ l -> doc_id d1 = doc_id d2 -> d1 = d2.
Proof.
  induction l as [|x l IH]; cbn; [by intros _ ?%not_elem_of_nil|].
  intros [Hx Hnd]%NoDup_cons [->|H1]%elem_of_cons [->|H2]%elem_of_cons Heq.
  - done.
  - destruct Hx. rewrite Heq. by apply list_elem_of_fmap_2.
  - destruct Hx. rewrite <- Heq. by apply list_elem_of_fmap_2.
  - by apply IH.
Qed.

(** C9. Along every run from a reachable state a record keeps the [uuid] and
    the [s3URL] it was created with, whatever operations take place; and a
    successful activation keeps every record in place, changing at most the
    flag and the three identity fields of a record. *)
Theorem imageURL_is_immutable :
  (forall s s', reachable s -> steps s s' ->
     forall d d', d ∈ QRCodeModel s -> d' ∈ QRCodeModel s' ->
       doc_id d' = doc_id d ->
       uuid d' = uuid d /\ s3URL d' = s3URL d) /\
  (forall w b s,
     (post_activate w b s).1 = Resolved activation_successful ->
     length (QRCodeModel (post_activate w b s).2) = length (QRCodeModel s) /\
     forall i d d',
       QRCodeModel s !! i = Some d ->
       QRCodeModel (post_activate w b s).2 !! i = Some d' ->
       (d' = d \/ d' = activation_of b d) /\
       doc_id d' = doc_id d /\ uuid d' = uuid d /\ s3URL d' = s3URL d).
Proof.
  split.
  - intros s s' Hs Hrun d d' Hd Hd' Hid.
    destruct (reachable_ids_fresh s Hs) as [Hlt Hnd].
    destruct (steps_origin s s' Hrun) as [_ Horigin].
    destruct (Horigin d') as (d0 & Hd0 & Hid0 & Hu & Hurl);
      [done|rewrite Hid; by apply Hlt|].
    assert (d0 = d) as -> by (eapply NoDup_fmap_elem_eq; [done..|congruence]).
    done.
  - intros w b s Hok.
    destruct (post_activate_success _ _ _ Hok) as (Hb & Hw & Hu & d0 & Hfind).
    rewrite (post_activate_found w b s d0) by done. cbn.
    split; [apply update_first_length|].
    intros i d d' Hd Hd'.
    destruct (update_first_lookup _ _ _ _ _ _ Hd Hd') as [->| ->]; auto.
Qed.

Lemma imageURL_is_immutable_witness :
  let d := mkQRCode 0%nat "u1" "http://res.cloudinary.com/qr/u1.png" "" "" "" false in
  let d' := mkQRCode 0%nat "u1" "http://res.cloudinary.com/qr/u1.png"
              "Ada" "Lovelace" "001" true in
  reachable one_generated /\ steps one_generated one_activated /\
  d ∈ QRCodeModel one_generated /\ d' ∈ QRCodeModel one_activated /\
  doc_id d' = doc_id d /\
  uuid d' = uuid d /\ s3URL d' = s3URL d.
Proof.
  cbn zeta.
  assert (Hrun : steps one_generated one_activated).
  { eapply steps_then; [apply steps_refl|].
    exact (step_post_activate u1_world ada one_generated). }
  split; [apply one_generated_reachable|]. split; [exact Hrun|].
  split; [left|]. split; [left|]. split; [reflexivity|].
  eapply (proj1 imageURL_is_immutable one_generated one_activated
            one_generated_reachable Hrun); [left|left|reflexivity].
Defined.

(** * Further properties *)

(** ** The renderer *)

(** X1. Rendering never touches the state.  When it resolves, the buffer holds
    a 300 by 300 canvas on which the code was drawn first, at error correction
    level H, and the logo second, in a box of side 60 that is centred on the
    canvas; it rejects exactly with the error of the encoder or, the encoder
    having answered, of the logo loader. *)
Theorem generateCustomQRCode_outcome (w : World) (text : string) (s : System) :
  (generateCustomQRCode w text s).2 = s /\
  (forall buffer, (generateCustomQRCode w text s).1 = Resolved buffer ->
     exists logo dx,
       qrcode_fault w text = None /\
       loadImage w "momo.png" = Resolved logo /\
       buffer = Png (mkCanvas 300 300
                  [DrawQR text "#facb05" "#044c73" 300 "H";
                   DrawImage logo dx dx 60 60]) /\
       dx + 60 + dx = 300) /\
  (forall e, (generateCustomQRCode w text s).1 = Rejected e ->
     qrcode_fault w text = Some e \/
     (qrcode_fault w text = None /\ loadImage w "momo.png" = Rejected e)).
Proof.
  split; [apply generateCustomQRCode_state|].
  unfold generateCustomQRCode, toCanvas, bind, guard, await, ret, throw.
  destruct (qrcode_fault w text) as [e0|]; cbn.
  - split; [done|]. intros e [= ->]. by left.
  - destruct (loadImage w "momo.png") as [logo|e0]; cbn.
    + split; [|done]. intros buffer [= <-]. by exists logo, 120.
    + split; [done|]. intros e [= ->]. by right.
Qed.

Lemma generateCustomQRCode_outcome_witness :
  let w := u1_world in
  let buffer :=
    Png (mkCanvas 300 300
           [DrawQR "abc" "#facb05" "#044c73" 300 "H";
            DrawImage (ImageFile "momo.png") 120 120 60 60]) in
  (generateCustomQRCode w "abc" initial).1 = Resolved buffer /\
  exists logo dx,
    qrcode_fault w "abc" = None /\
    loadImage w "momo.png" = Resolved logo /\
    buffer = Png (mkCanvas 300 300
               [DrawQR "abc" "#facb05" "#044c73" 300 "H";
                DrawImage logo dx dx 60 60]) /\
    dx + 60 + dx = 300.
Proof.
  cbn zeta. split; [reflexivity|].
  apply (proj1 (proj2 (generateCustomQRCode_outcome u1_world "abc" initial))).
  reflexivity.
Defined.

(** ** The queue processor, continued *)

(** X2. The callback never rejects, and a job has exactly two outcomes.
    Either the three stages went through: the callback resolves to the
    identifier drawn and the URL returned by the upload, and the collection
    grew by exactly one record carrying them, not activated and with no
    identity, nothing else being touched and no uniqueness test being made.
    Or a stage failed with some error: the callback resolves to no result, the
    collection is as before and the console grew by that error. *)
Theorem process_outcome (w : World) (job : Job) (s : System) :
  (exists buffer url,
     (generateCustomQRCode w (payload w) s).1 = Resolved buffer /\
     upload_stream w buffer = upload_result url /\
     save_fault w = None /\
     process w job s =
       (Resolved (Some (mkJobResult (uuidv4 w) url)),
        mkSystem (qrQueue s) (QRCodeModel s ++ [generated w url s])
          (S (next_id s)) (console s))) \/
  (exists e,
     job_failure w s e /\
     (process w job s).1 = Resolved None /\
     QRCodeModel (process w job s).2 = QRCodeModel s /\
     console (process w job s).2 = console s ++ [e]).
Proof.
  destruct (generateCustomQRCode w (payload w) s) as [[b0|e0] s1] eqn:Hrender.
  - destruct (upload_stream w b0) as [e|url] eqn:Hupload.
    + right. exists e.
      assert (Hfail : job_failure w s e)
        by (eapply upload_failed; [by rewrite Hrender|done]).
      split; [done|]. clear Hfail. revert Hrender.
      render_cases w s; intros [= -> ]; cbn; unfold uploadToCloudinary;
        by rewrite Hupload.
    + destruct (save_fault w) as [e|] eqn:Hsave.
      * right. exists e.
        assert (Hfail : job_failure w s e)
          by (eapply save_failed; [by rewrite Hrender|done..]).
        split; [done|]. clear Hfail. revert Hrender.
        render_cases w s; intros [= ->]; cbn;
          unfold uploadToCloudinary, save, guard, bind;
          by rewrite Hupload, Hsave.
      * left. exists b0, url. split; [done|]. split; [done|]. split; [done|].
        revert Hrender.
        render_cases w s; intros [= ->]; cbn;
          unfold uploadToCloudinary, save, guard, bind.
        by rewrite Hupload, Hsave.
  - right. exists e0.
    assert (Hfail : job_failure w s e0)
      by (eapply render_failed; by rewrite Hrender).
    split; [done|]. clear Hfail. revert Hrender.
    by render_cases w s; intros [= ->]; cbn.
Qed.

Lemma process_trace (w : World) (job : Job) (s : System) :
  (length (QRCodeModel (process w job s).2) + length (console (process w job s).2)
   = S (length (QRCodeModel s) + length (console s)))%nat.
Proof.
  destruct (process_effect w job s) as [_ _|_ _ _ _|_ _ _ _ _ _|_ _]; clear.
  all: render_cases w s; cbn; rewrite ?length_app; cbn; try lia.
  all: unfold uploadToCloudinary;
    destruct (upload_stream w buf); cbn; rewrite ?length_app; cbn; try lia.
  all: unfold save, guard, bind; destruct (save_fault w); cbn;
    rewrite ?length_app; cbn; lia.
Qed.

(** X3. Every job leaves exactly one trace: after the worker has run any
    number of jobs, whatever happened in each, the number of records plus the
    number of console lines has grown by the number of jobs. *)
Theorem run_jobs_traces (ws : list World) (s : System) :
  (length (QRCodeModel (run_jobs ws s)) + length (console (run_jobs ws s))
   = length (QRCodeModel s) + length (console s) + length ws)%nat.
Proof.
  unfold run_jobs. revert s. induction ws as [|w ws IH]; intros s; cbn; [lia|].
  rewrite IH, process_trace. lia.
Qed.

(** ** The producer, continued *)


(** ** Activation, continued *)

Lemma unknown_id_dec (id : string) (s : System) :
  {unknown_id id s} + {exists d, find_first id (QRCodeModel s) = Some d}.
Proof.
  destruct (find_first id (QRCodeModel s)) as [d|] eqn:H.
  - right. by exists d.
  - left. unfold unknown_id. by apply find_first_None.
Qed.

Lemma post_activate_lookup_refused
    (w : World) (b : ActivateBody) (s : System) (e : Error) :
  fields_present b ->
  findOne_fault w = Some e ->
  post_activate w b s =
    (Resolved (res_status_json 500 (JMessage "Server error")),
     mkSystem (qrQueue s) (QRCodeModel s) (next_id s) (console s ++ [e])).
Proof.
  intros Hb Hw. unfold post_activate. rewrite (fields_present_test b Hb).
  unfold try_catch, bind, findOne, guard. by rewrite Hw.
Qed.

Lemma post_activate_update_refused
    (w : World) (b : ActivateBody) (s : System) (d : QRCode) (e : Error) :
  fields_present b ->
  findOne_fault w = None ->
  find_first (field (body_id b)) (QRCodeModel s) = Some d ->
  updateOne_fault w = Some e ->
  post_activate w b s =
    (Resolved (res_status_json 500 (JMessage "Server error")),
     mkSystem (qrQueue s) (QRCodeModel s) (next_id s) (console s ++ [e])).
Proof.
  intros Hb Hw Hfind Hu. unfold post_activate. rewrite (fields_present_test b Hb).
  unfold try_catch, bind, findOne, updateOne, guard. rewrite Hw. cbn.
  rewrite Hfind. cbn. by rewrite Hu.
Qed.

Lemma answered_resolved (r : Response) (s : System) (code : Z) :
  answered (Resolved r, s) code <-> status r = code.
Proof.
  unfold answered. cbn. split.
  - by intros [body [= ->]].
  - intros <-. exists (json r). by destruct r.
Qed.

Ltac status_cases :=
  rewrite !answered_resolved; cbn;
  repeat match goal with |- _ /\ _ => split end;
  try solve [intuition (try lia; try congruence; eauto)].

(** X5. An activation request is always answered, with one of four statuses
    that are decided in this order: 400 exactly when a field is missing or
    empty, whatever the database holds or does; 500 when the lookup is refused
    or, a record being found, the update is refused; 404 when the lookup is
    answered and no record carries the id; 200 otherwise.  Only a 200 changes
    the collection, and exactly a 500 writes to the console. *)
Theorem post_activate_status (w : World) (b : ActivateBody) (s : System) :
  let o := post_activate w b s in
  (answered o 200 \/ answered o 400 \/ answered o 404 \/ answered o 500) /\
  (answered o 400 <-> ~ fields_present b) /\
  (answered o 404 <->
     fields_present b /\ findOne_fault w = None /\
     unknown_id (field (body_id b)) s) /\
  (answered o 500 <->
     fields_present b /\
     (findOne_fault w <> None \/
      (~ unknown_id (field (body_id b)) s /\ updateOne_fault w <> None))) /\
  (answered o 200 <->
     fields_present b /\ findOne_fault w = None /\ updateOne_fault w = None /\
     ~ unknown_id (field (body_id b)) s) /\
  (~ answered o 200 -> QRCodeModel o.2 = QRCodeModel s) /\
  (answered o 500 <-> exists e, console o.2 = console s ++ [e]) /\
  (~ answered o 500 -> console o.2 = console s).
Proof.
  cbn zeta.
  assert (Hcons : (exists e : Error, console s = console s ++ [e]) -> False).
  { intros [e H]. apply (f_equal length) in H. rewrite length_app in H.
    cbn in H. lia. }
  destruct (fields_present_dec b) as [Hb|Hb].
  2: { rewrite post_activate_bad_request by done. status_cases. }
  destruct (findOne_fault w) as [e|] eqn:Hw.
  { rewrite (post_activate_lookup_refused w b s e) by done. status_cases. }
  destruct (unknown_id_dec (field (body_id b)) s) as [Hun|[d Hd]].
  { rewrite post_activate_not_found by (by try apply find_first_None).
    status_cases. }
  assert (Hknown : ~ unknown_id (field (body_id b)) s).
  { intros Hun%find_first_None. congruence. }
  destruct (updateOne_fault w) as [e|] eqn:Hu.
  { rewrite (post_activate_update_refused w b s d e) by done. status_cases. }
  rewrite (post_activate_found w b s d) by done. status_cases.
Qed.

Lemma post_activate_status_witness :
  let o := post_activate (db_down "ECONNREFUSED") ada sample_system in
  answered o 500 /\ QRCodeModel o.2 = QRCodeModel sample_system /\
  exists e, console o.2 = console sample_system ++ [e].
Proof.
  cbn zeta.
  pose proof (post_activate_status (db_down "ECONNREFUSED") ada sample_system)
    as (_ & _ & _ & H500 & _ & Hframe & Hlog & _).
  assert (H : answered (post_activate (db_down "ECONNREFUSED") ada sample_system) 500).
  { apply H500. split; [done|]. by left. }
  split; [exact H|]. split; [|by apply Hlog].
  apply Hframe. intros [body Hbody]. discriminate Hbody.
Defined.

(** ** Lookup after generation and activation *)

Lemma post_info_answered (w : World) (id : string) (s : System) :
  findOne_fault w = None ->
  post_info w id s =
    (Resolved (res_json (JDocument (find_first id (QRCodeModel s)))), s).
Proof. intros Hw. unfold post_info, bind, findOne, guard. by rewrite Hw. Qed.

Lemma find_first_app_new (id : string) (l : list QRCode) (d : QRCode) :
  (forall x, x ∈ l -> uuid x <> id) -> uuid d = id ->
  find_first id (l ++ [d]) = Some d.
Proof.
  intros Hl Hd. induction l as [|x l IH]; cbn.
  - by destruct (decide (uuid d = id)).
  - destruct (decide (uuid x = id)) as [Hx|Hx].
    + destruct (Hl x); [left|done].
    + apply IH. intros y Hy. apply Hl. by right.
Qed.

(** With distinct [_id]s, the update of the record found by [uuid] is what a
    lookup by the same [uuid] finds afterwards. *)
Lemma find_first_updated (id : string) (f : QRCode -> QRCode) (l : list QRCode)
    (d : QRCode) :
  NoDup (doc_id <$> l) ->
  uuid (f d) = uuid d ->
  find_first id l = Some d ->
  find_first id (update_first (doc_id d) f l) = Some (f d).
Proof.
  intros Hnd Hf. induction l as [|x l IH]; cbn; [done|].
  apply NoDup_cons in Hnd as [Hx Hnd].
  destruct (decide (uuid x = id)) as [Hid|Hid].
  - intros [= ->]. destruct (decide (doc_id d = doc_id d)); [|done]. cbn.
    rewrite Hf. by destruct (decide (uuid d = id)).
  - intros Hfind. destruct (decide (doc_id x = doc_id d)) as [Heq|Hne].
    + destruct Hx. rewrite Heq. apply list_elem_of_fmap_2.
      by apply find_first_Some in Hfind as [? _].
    + cbn. destruct (decide (uuid x = id)); [done|]. by apply IH.
Qed.

Lemma process_success (w : World) (job : Job) (s : System) (r : JobResult) :
  (process w job s).1 = Resolved (Some r) ->
  exists url,
    r = mkJobResult (uuidv4 w) url /\
    QRCodeModel (process w job s).2 = QRCodeModel s ++ [generated w url s].
Proof.
  render_cases w s; cbn; [|done]. unfold uploadToCloudinary.
  destruct (upload_stream w buf) as [e|url]; cbn; [done|].
  unfold save, guard, bind. destruct (save_fault w); cbn; [done|].
  intros [= <-]. by exists url.
Qed.

(** X6. Once a job has succeeded with an identifier that no record carried, a lookup of that identifier returns the record just
    stored, with the URL of the upload, not activated and without identity;
    and an activation request for it with its four fields present is answered
    200. *)
Theorem generated_record_is_found
    (w w' : World) (job : Job) (s : System) (r : JobResult) (b : ActivateBody) :
  unknown_id (uuidv4 w) s ->
  (process w job s).1 = Resolved (Some r) ->
  findOne_fault w' = None ->
  updateOne_fault w' = None ->
  fields_present b ->
  body_id b = Some (uuidv4 w) ->
  let s' := (process w job s).2 in
  result_uuid r = uuidv4 w /\
  (post_info w' (uuidv4 w) s').1 =
    Resolved (res_json (JDocument
      (Some (mkQRCode (next_id s) (uuidv4 w) (result_s3URL r) "" "" "" false)))) /\
  (post_activate w' b s').1 = Resolved activation_successful.
Proof.
  intros Hun Hok Hw' Hu' Hb Hid s'.
  destruct (process_success w job s r Hok) as (url & -> & Heq).
  assert (Hfind : find_first (uuidv4 w) (QRCodeModel s') = Some (generated w url s))
    by (unfold s'; rewrite Heq; by apply find_first_app_new).
  split; [done|]. split.
  - rewrite post_info_answered by done. cbn. by rewrite Hfind.
  - erewrite post_activate_found; [done..|]. by rewrite Hid.
Qed.

Lemma generated_record_is_found_witness :
  let job := mkJob EmptyObject in
  let r := mkJobResult "u1" "http://res.cloudinary.com/qr/u1.png" in
  unknown_id (uuidv4 u1_world) initial /\
  (process u1_world job initial).1 = Resolved (Some r) /\
  fields_present ada /\
  (post_info u1_world "u1" (process u1_world job initial).2).1 =
    Resolved (res_json (JDocument
      (Some (mkQRCode 0%nat "u1" "http://res.cloudinary.com/qr/u1.png"
               "" "" "" false)))) /\
  (post_activate u1_world ada (process u1_world job initial).2).1 =
    Resolved activation_successful.
Proof.
  cbn zeta.
  assert (Hun : unknown_id (uuidv4 u1_world) initial)
    by (by intros d ?%not_elem_of_nil).
  split; [exact Hun|]. split; [reflexivity|]. split; [done|].
  apply (generated_record_is_found u1_world u1_world (mkJob EmptyObject) initial
           (mkJobResult "u1" "http://res.cloudinary.com/qr/u1.png") ada Hun);
    done.
Defined.

(** X7. In a reachable state, after a successful activation a lookup of the
    same id returns the record that was found, with the flag set and the
    submitted identity, and with its [uuid] and [s3URL] as before. *)
Theorem activated_record_is_found
    (w w' : World) (b : ActivateBody) (s : System) :
  reachable s ->
  (post_activate w b s).1 = Resolved activation_successful ->
  findOne_fault w' = None ->
  exists d,
    find_first (field (body_id b)) (QRCodeModel s) = Some d /\
    (post_info w' (field (body_id b)) (post_activate w b s).2).1 =
      Resolved (res_json (JDocument
        (Some (mkQRCode (doc_id d) (uuid d) (s3URL d)
                 (field (body_firstName b)) (field (body_lastName b))
                 (field (body_accountNumber b)) true)))).
Proof.
  intros Hs Hok Hw'.
  destruct (post_activate_success _ _ _ Hok) as (Hb & Hw & Hu & d & Hfind).
  destruct (reachable_ids_fresh s Hs) as [_ Hnd].
  exists d. split; [done|].
  rewrite (post_activate_found w b s d) by done.
  rewrite post_info_answered by done. cbn.
  by rewrite (find_first_updated _ (activation_of b) _ d).
Qed.

Lemma activated_record_is_found_witness :
  reachable one_generated /\
  (post_activate u1_world ada one_generated).1 = Resolved activation_successful /\
  exists d,
    find_first "u1" (QRCodeModel one_generated) = Some d /\
    (post_info u1_world "u1" (post_activate u1_world ada one_generated).2).1 =
      Resolved (res_json (JDocument
        (Some (mkQRCode (doc_id d) (uuid d) (s3URL d) "Ada" "Lovelace" "001" true)))).
Proof.
  split; [apply one_generated_reachable|]. split; [reflexivity|].
  apply (activated_record_is_found u1_world u1_world ada one_generated
           one_generated_reachable); reflexivity.
Defined.

(** ** The activation flag along runs *)

Lemma steps_flag (s s' : System) :
  steps s s' ->
  forall d', d' ∈ QRCodeModel s' -> (doc_id d' < next_id s)%nat ->
    exists d, d ∈ QRCodeModel s /\ doc_id d = doc_id d' /\
              (isActivated d = true -> isActivated d' = true).
Proof.
  induction 1 as [s|s1 s2 s3 Hrun IH Hstep]; [eauto|].
  pose proof (steps_origin _ _ Hrun) as [Hn _].
  destruct (step_effect _ _ Hstep) as [H1 H2|id url H1 H2|d0 b Hb _ H1 H2|H1 H2];
    intros d'; rewrite H1.
  - apply IH.
  - intros [Hd| ->%list_elem_of_singleton]%elem_of_app; [by apply IH|].
    cbn. lia.
  - intros [Hd|(d1 & Hd1 & ->)]%elem_of_update_first; [by apply IH|].
    cbn. intros Hlt. destruct (IH d1 Hd1 Hlt) as (d & Hd & Hid & _). eauto.
  - by intros ?%not_elem_of_nil.
Qed.

(** X8. Activation is never undone: along every run from a reachable state,
    a record that is activated is still activated for as long as it is
    stored. *)
Theorem isActivated_is_monotone (s s' : System) (d d' : QRCode) :
  reachable s ->
  steps s s' ->
  d ∈ QRCodeModel s ->
  d' ∈ QRCodeModel s' ->
  doc_id d' = doc_id d ->
  isActivated d = true ->
  isActivated d' = true.
Proof.
  intros Hs Hrun Hd Hd' Hid Hact.
  destruct (reachable_ids_fresh s Hs) as [Hlt Hnd].
  destruct (steps_flag s s' Hrun d') as (d0 & Hd0 & Hid0 & Hflag);
    [done|rewrite Hid; by apply Hlt|].
  assert (d0 = d) as -> by (eapply NoDup_fmap_elem_eq; [done..|congruence]).
  by apply Hflag.
Qed.

Lemma isActivated_is_monotone_witness :
  let d := mkQRCode 0%nat "u1" "http://res.cloudinary.com/qr/u1.png"
             "Ada" "Lovelace" "001" true in
  let d' := mkQRCode 0%nat "u1" "http://res.cloudinary.com/qr/u1.png"
              "Grace" "Hopper" "002" true in
  let s' := (post_activate u1_world grace one_activated).2 in
  reachable one_activated /\ steps one_activated s' /\
  d ∈ QRCodeModel one_activated /\ d' ∈ QRCodeModel s' /\
  isActivated d' = true.
Proof.
  cbn zeta.
  assert (Hrun : steps one_activated (post_activate u1_world grace one_activated).2).
  { eapply steps_then; [apply steps_refl|].
    exact (step_post_activate u1_world grace one_activated). }
  split; [apply one_activated_reachable|]. split; [exact Hrun|].
  split; [left|]. split; [left|].
  eapply (isActivated_is_monotone one_activated _ _ _ one_activated_reachable Hrun);
    [left|left|reflexivity|reflexivity].
Defined.

(** ** Bulk delete *)

(** X9. When the database accepts it, the bulk delete reports as deleted the
    number of records that were stored and leaves the collection empty, while
    the jobs still queued stay queued; from then on a listing whose skip is
    not negative reports no record and no page, every lookup answers with a
    null body and every well-formed activation is answered 404. *)
Theorem delete_qrCodes_empties (w : World) (s : System) :
  deleteMany_fault w = None ->
  let s' := (delete_qrCodes w s).2 in
  (delete_qrCodes w s).1 =
    Resolved (mkResponse 200
      (JDeleted "All QR codes deleted successfully."
         (Z.of_nat (length (QRCodeModel s))))) /\
  QRCodeModel s' = [] /\
  qrQueue s' = qrQueue s /\
  (forall w' q,
     find_fault w' = None -> countDocuments_fault w' = None -> 0 <= list_skip q ->
     (get_generateQR w' q s').1 = Resolved (res_json (JListing (list_page q) 0 0 []))) /\
  (forall w' id,
     findOne_fault w' = None ->
     (post_info w' id s').1 = Resolved (res_json (JDocument None))) /\
  (forall w' b,
     fields_present b -> findOne_fault w' = None ->
     (post_activate w' b s').1 = Resolved not_found).
Proof.
  intros Hw s'.
  assert (Hs' : delete_qrCodes w s =
                (Resolved (res_json (JDeleted "All QR codes deleted successfully."
                   (Z.of_nat (length (QRCodeModel s))))), with_docs [] s)).
  { unfold delete_qrCodes, try_catch, bind, deleteMany, guard. by rewrite Hw. }
  unfold s'. rewrite Hs'. cbn. split; [done|]. split; [done|]. split; [done|].
  split; [|split].
  - intros w' q Hf Hc Hskip.
    unfold get_generateQR, try_catch, bind, find_limit_skip, countDocuments, guard.
    rewrite Hf, Hc. cbn. destruct (Z.ltb_spec (list_skip q) 0); [lia|]. cbn.
    unfold apply_limit. rewrite drop_nil, take_nil.
    by destruct (list_limit q =? 0).
  - intros w' id Hf. by rewrite post_info_answered.
  - intros w' b Hb Hf. by rewrite post_activate_not_found.
Qed.

Lemma delete_qrCodes_empties_witness :
  let s' := (delete_qrCodes u1_world sample_25).2 in
  deleteMany_fault u1_world = None /\
  (delete_qrCodes u1_world sample_25).1 =
    Resolved (mkResponse 200 (JDeleted "All QR codes deleted successfully." 25)) /\
  QRCodeModel s' = [] /\
  (get_generateQR u1_world (three_pages 1) s').1 =
    Resolved (res_json (JListing 2 0 0 [])).
Proof.
  cbn zeta. split; [reflexivity|].
  pose proof (delete_qrCodes_empties u1_world sample_25 eq_refl)
    as (Hresp & Hdocs & _ & Hlist & _).
  split; [exact Hresp|]. split; [exact Hdocs|].
  apply (Hlist u1_world (three_pages 1)); [reflexivity|reflexivity|].
  by vm_compute.
Defined.

(** ** Listing, continued *)

Lemma ceil_div_bounds (n l : Z) :
  0 < l -> n <= ceil_div n l * l < n + l.
Proof.
  intros Hl. unfold ceil_div.
  pose proof (Z.mul_div_le (- n) l Hl).
  pose proof (Z.mul_succ_div_gt (- n) l Hl). lia.
Qed.

Lemma get_generateQR_window (w : World) (q : ListQuery) (s : System) :
  find_fault w = None ->
  countDocuments_fault w = None ->
  0 < list_page q ->
  0 < list_limit q ->
  get_generateQR w q s =
    (Resolved (res_json
       (JListing (list_page q) (Z.of_nat (length (QRCodeModel s)))
          (ceil_div (Z.of_nat (length (QRCodeModel s))) (list_limit q))
          (take (Z.to_nat (list_limit q))
             (drop (Z.to_nat ((list_page q - 1) * list_limit q)) (QRCodeModel s))))),
     s).
Proof.
  intros Hf Hc Hp Hl.
  unfold get_generateQR, try_catch, bind, find_limit_skip, countDocuments, guard.
  rewrite Hf, Hc. cbn. unfold list_skip.
  destruct (Z.ltb_spec ((list_page q - 1) * list_limit q) 0); [nia|]. cbn.
  unfold apply_limit. destruct (Z.eqb_spec (list_limit q) 0); [lia|].
  by rewrite Z.abs_eq by lia.
Qed.

(** X10. Whenever the page and the limit in use are positive and the database
    answers, the listing returns the window of at most limit records that
    starts after the first (page - 1) * limit records of the collection, in
    the collection's order, with the number of stored records as total; the
    number of pages it reports is the least number of windows that covers the
    collection, and the window is empty exactly for the pages beyond it. *)
Theorem list_window (w : World) (q : ListQuery) (s : System) :
  find_fault w = None ->
  countDocuments_fault w = None ->
  0 < list_page q ->
  0 < list_limit q ->
  let n := Z.of_nat (length (QRCodeModel s)) in
  let qr := take (Z.to_nat (list_limit q))
              (drop (Z.to_nat ((list_page q - 1) * list_limit q)) (QRCodeModel s)) in
  get_generateQR w q s =
    (Resolved (res_json
       (JListing (list_page q) n (ceil_div n (list_limit q)) qr)), s) /\
  Z.of_nat (length qr) <= list_limit q /\
  n <= ceil_div n (list_limit q) * list_limit q < n + list_limit q /\
  (qr <> [] <-> list_page q <= ceil_div n (list_limit q)).
Proof.
  intros Hf Hc Hp Hl n qr.
  pose proof (ceil_div_bounds n (list_limit q) Hl) as Hceil.
  split; [by apply get_generateQR_window|].
  assert (Hlen : length qr =
            Nat.min (Z.to_nat (list_limit q))
              (length (QRCodeModel s) - Z.to_nat ((list_page q - 1) * list_limit q)))
    by (unfold qr; by rewrite length_take, length_drop).
  split; [lia|]. split; [done|].
  split.
  - intros Hne. destruct (decide (length qr = 0%nat)) as [H0|H0];
      [by apply nil_length_inv in H0|].
    unfold n in *. nia.
  - intros Hle Hnil. apply (f_equal length) in Hnil. cbn in Hnil.
    unfold n in *. nia.
Qed.

Lemma list_window_witness :
  let q := mkListQuery (Some "3") (Some "10") in
  0 < list_page q /\ 0 < list_limit q /\
  get_generateQR u1_world q sample_25 =
    (Resolved (res_json (JListing 3 25 3 (numbered <$> seq 20 5))), sample_25).
Proof.
  cbn zeta. split; [reflexivity|]. split; [reflexivity|].
  apply (list_window u1_world (mkListQuery (Some "3") (Some "10")) sample_25);
    reflexivity.
Defined.

Lemma concat_windows (m n : nat) (l : list QRCode) :
  concat ((fun k => take m (drop (k * m) l)) <$> seq 0 n) = take (n * m) l.
Proof.
  induction n as [|n IH]; [done|].
  rewrite seq_S, fmap_app, concat_app, IH. cbn.
  rewrite app_nil_r, take_take_drop. f_equal. lia.
Qed.

(** X11. Paging loses and repeats nothing: with a positive limit, the pages
    1 to totalPages, put one after the other, are the whole collection in its
    order. *)
Theorem pages_cover_collection
    (w : World) (qs : nat -> ListQuery) (limit : Z) (s : System) :
  find_fault w = None ->
  countDocuments_fault w = None ->
  0 < limit ->
  let totalPages :=
    Z.to_nat (ceil_div (Z.of_nat (length (QRCodeModel s))) limit) in
  (forall k, (k < totalPages)%nat ->
     list_page (qs k) = Z.of_nat k + 1 /\ list_limit (qs k) = limit) ->
  concat ((fun k => listed (get_generateQR w (qs k) s)) <$> seq 0 totalPages)
  = QRCodeModel s.
Proof.
  intros Hf Hc Hl totalPages Hqs.
  pose proof (ceil_div_bounds (Z.of_nat (length (QRCodeModel s))) limit Hl) as Hceil.
  assert (Hext : (fun k => listed (get_generateQR w (qs k) s)) <$> seq 0 totalPages
               = (fun k => take (Z.to_nat limit)
                             (drop (k * Z.to_nat limit) (QRCodeModel s)))
                 <$> seq 0 totalPages).
  { apply Forall_fmap_ext, Forall_forall. intros k [_ Hk]%elem_of_seq.
    destruct (Hqs k) as [Hpage Hlimit]; [lia|].
    rewrite get_generateQR_window by (try done; lia).
    unfold listed. cbn. rewrite Hpage, Hlimit. do 2 f_equal. nia. }
  rewrite Hext, concat_windows. apply take_ge. unfold totalPages. nia.
Qed.

Lemma pages_cover_collection_witness :
  find_fault u1_world = None /\ countDocuments_fault u1_world = None /\ 0 < 10 /\
  (forall k, (k < 3)%nat ->
     list_page (three_pages k) = Z.of_nat k + 1 /\ list_limit (three_pages k) = 10) /\
  concat ((fun k => listed (get_generateQR u1_world (three_pages k) sample_25))
            <$> seq 0 3)
  = QRCodeModel sample_25.
Proof.
  assert (Hqs : forall k, (k < 3)%nat ->
            list_page (three_pages k) = Z.of_nat k + 1 /\
            list_limit (three_pages k) = 10).
  { intros [|[|[|k]]] Hk; [by split..|lia]. }
  split; [reflexivity|]. split; [reflexivity|]. split; [lia|]. split; [exact Hqs|].
  exact (pages_cover_collection u1_world three_pages 10 sample_25
           eq_refl eq_refl eq_refl Hqs).
Defined.

(** ** The read endpoints *)

(** X12. A lookup never changes the state.  When the database answers, the
    response is a 200 whose body is the first record that carries the id, or
    null when no record does; when the database refuses the lookup, the
    handler rejects with the error and sends no response. *)
Theorem post_info_outcome (w : World) (id : string) (s : System) :
  (post_info w id s).2 = s /\
  (findOne_fault w = None ->
   (unknown_id id s ->
    (post_info w id s).1 = Resolved (mkResponse 200 (JDocument None))) /\
   (forall d, find_first id (QRCodeModel s) = Some d ->
      (post_info w id s).1 = Resolved (mkResponse 200 (JDocument (Some d))) /\
      d ∈ QRCodeModel s /\ uuid d = id)) /\
  (forall e, findOne_fault w = Some e -> (post_info w id s).1 = Rejected e).
Proof.
  split; [apply post_info_state|]. split.
  - intros Hw. rewrite post_info_answered by done. cbn. split.
    + intros Hun%find_first_None. by rewrite Hun.
    + intros d Hd. rewrite Hd. split; [done|]. by apply find_first_Some.
  - intros e Hw. unfold post_info, bind, findOne, guard. by rewrite Hw.
Qed.

Lemma post_info_outcome_witness :
  findOne_fault u1_world = None /\
  unknown_id "nope" sample_system /\
  (post_info u1_world "nope" sample_system).1 =
    Resolved (mkResponse 200 (JDocument None)) /\
  (post_info (db_down "ECONNREFUSED") "u1" sample_system).1 = Rejected "ECONNREFUSED".
Proof.
  assert (Hun : unknown_id "nope" sample_system).
  { intros d [->|Hd]%elem_of_cons; [done|]. by apply not_elem_of_nil in Hd. }
  split; [reflexivity|]. split; [exact Hun|]. split.
  - apply (proj1 (proj2 (post_info_outcome u1_world "nope" sample_system)) eq_refl), Hun.
  - apply (proj2 (proj2 (post_info_outcome (db_down "ECONNREFUSED") "u1" sample_system))).
    reflexivity.
Defined.

(** X13. A listing request is always answered, with 200 or 500, and changes
    nothing, not even the console; the page and the limit it uses are never
    zero, so the number of pages is never the result of a division by zero. *)
Theorem get_generateQR_safe (w : World) (q : ListQuery) (s : System) :
  (get_generateQR w q s).2 = s /\
  (answered (get_generateQR w q s) 200 \/ answered (get_generateQR w q s) 500) /\
  list_page q <> 0 /\ list_limit q <> 0.
Proof.
  split; [apply get_generateQR_state|]. split.
  - unfold get_generateQR, try_catch, bind, find_limit_skip, countDocuments, guard.
    destruct (find_fault w); cbn; [right; by eexists|].
    destruct (list_skip q <? 0); cbn; [right; by eexists|].
    destruct (countDocuments_fault w); cbn; [right|left]; by eexists.
  - unfold list_page, list_limit.
    split; destruct (parseInt _) as [| |n]; cbn; try done;
      by destruct (Z.eqb_spec n 0).
Qed.

(** ** Decimal query parameters *)












(** ** What a step keeps *)

Lemma update_first_keeps (k : ObjectId) (f : QRCode -> QRCode) (l : list QRCode)
    (d : QRCode) :
  d ∈ l -> exists d', d' ∈ update_first k f l /\ (d' = d \/ d' = f d).
Proof.
  induction l as [|x l IH]; cbn; [by intros ?%not_elem_of_nil|].
  destruct (decide (doc_id x = k)).
  - intros [->|Hd]%elem_of_cons.
    + exists (f x). split; [left|by right].
    + exists d. split; [by right|by left].
  - intros [->|Hd]%elem_of_cons.
    + exists x. split; [left|by left].
    + destruct (IH Hd) as (d' & Hd' & Heq). exists d'. split; [by right|done].
Qed.

(** X15. No operation other than one that empties the collection removes a
    record: after any step, either the collection is empty or every record
    that was stored is still stored under the same [_id], with the same [uuid]
    and [s3URL], and the collection has not shrunk. *)
Theorem step_keeps_records (s s' : System) :
  step s s' ->
  QRCodeModel s' = [] \/
  ((length (QRCodeModel s) <= length (QRCodeModel s'))%nat /\
   forall d, d ∈ QRCodeModel s ->
     exists d', d' ∈ QRCodeModel s' /\
       doc_id d' = doc_id d /\ uuid d' = uuid d /\ s3URL d' = s3URL d).
Proof.
  intros Hstep.
  destruct (step_effect _ _ Hstep) as [H1 _|id url H1 _|d0 b _ _ H1 _|H1 _];
    [right|right|right|by left]; rewrite H1.
  - split; [done|]. intros d Hd. by exists d.
  - split; [rewrite length_app; lia|]. intros d Hd. exists d.
    split; [apply elem_of_app; by left|done].
  - split; [by rewrite update_first_length|]. intros d Hd.
    destruct (update_first_keeps (doc_id d0) (activation_of b) _ d Hd)
      as (d' & Hd' & [->| ->]); eexists; (split; [exact Hd'|done]).
Qed.

Lemma step_keeps_records_witness :
  let s' := (post_activate u1_world ada one_generated).2 in
  step one_generated s' /\
  (QRCodeModel s' = [] \/
   ((length (QRCodeModel one_generated) <= length (QRCodeModel s'))%nat /\
    forall d, d ∈ QRCodeModel one_generated ->
      exists d', d' ∈ QRCodeModel s' /\
        doc_id d' = doc_id d /\ uuid d' = uuid d /\ s3URL d' = s3URL d)).
Proof.
  cbn zeta.
  assert (Hstep : step one_generated (post_activate u1_world ada one_generated).2)
    by exact (step_post_activate u1_world ada one_generated).
  split; [exact Hstep|].
  exact (step_keeps_records one_generated _ Hstep).
Defined.

(** With distinct [_id]s, the update of the record found by [uuid] rewrites
    that record where it stands and nothing else. *)
Lemma update_first_found (id : string) (f : QRCode -> QRCode) (l : list QRCode)
    (d : QRCode) :
  NoDup (doc_id <$> l) ->
  find_first id l = Some d ->
  exists i : nat,
    l !! i = Some d /\
    (forall (j : nat) x, (j < i)%nat -> l !! j = Some x -> uuid x <> id) /\
    update_first (doc_id d) f l = <[i:=f d]> l.
Proof.
  intros Hnd. induction l as [|x l IH]; cbn; [done|].
  apply NoDup_cons in Hnd as [Hx Hnd].
  destruct (decide (uuid x = id)) as [Hid|Hid].
  - intros [= ->]. exists 0%nat. split; [done|]. split; [intros j y Hj; lia|].
    by destruct (decide (doc_id d = doc_id d)).
  - intros Hfind. destruct (IH Hnd Hfind) as (i & Hi & Hbefore & Hupd).
    exists (S i). split; [done|]. split.
    + intros [|j] y Hj; cbn; [by intros [= <-]|].
      apply Hbefore. lia.
    + destruct (decide (doc_id x = doc_id d)) as [Heq|Hne]; [|cbn; by rewrite Hupd].
      destruct Hx. rewrite Heq. apply list_elem_of_fmap_2.
      by apply find_first_Some in Hfind as [? _].
Qed.

(** X16. In a reachable state a successful activation rewrites exactly one
    record, where it stands: the first record, in the collection's order,
    that carries the id.  Every other record is left as it was, a later
    record with the same [uuid] included. *)
Theorem activation_rewrites_first_match (w : World) (b : ActivateBody) (s : System) :
  reachable s ->
  (post_activate w b s).1 = Resolved activation_successful ->
  exists (i : nat) (d : QRCode),
    QRCodeModel s !! i = Some d /\
    uuid d = field (body_id b) /\
    (forall (j : nat) x, (j < i)%nat -> QRCodeModel s !! j = Some x ->
       uuid x <> field (body_id b)) /\
    QRCodeModel (post_activate w b s).2 = <[i:=activation_of b d]> (QRCodeModel s) /\
    (forall j : nat, j <> i ->
       QRCodeModel (post_activate w b s).2 !! j = QRCodeModel s !! j).
Proof.
  intros Hs Hok.
  destruct (post_activate_success _ _ _ Hok) as (Hb & Hw & Hu & d & Hfind).
  destruct (reachable_ids_fresh s Hs) as [_ Hnd].
  destruct (update_first_found _ (activation_of b) _ d Hnd Hfind)
    as (i & Hi & Hbefore & Hupd).
  exists i, d. rewrite (post_activate_found w b s d) by done. cbn.
  split; [done|]. split; [by apply find_first_Some in Hfind as [_ ?]|].
  split; [done|]. split; [done|].
  intros j Hj. rewrite Hupd. by apply list_lookup_insert_ne.
Qed.

Lemma activation_rewrites_first_match_witness :
  reachable one_generated /\
  (post_activate u1_world ada one_generated).1 = Resolved activation_successful /\
  exists (i : nat) (d : QRCode),
    QRCodeModel one_generated !! i = Some d /\
    uuid d = "u1" /\
    (forall (j : nat) x, (j < i)%nat -> QRCodeModel one_generated !! j = Some x ->
       uuid x <> "u1") /\
    QRCodeModel (post_activate u1_world ada one_generated).2
      = <[i:=activation_of ada d]> (QRCodeModel one_generated) /\
    (forall j : nat, j <> i ->
       QRCodeModel (post_activate u1_world ada one_generated).2 !! j
       = QRCodeModel one_generated !! j).
Proof.
  split; [apply one_generated_reachable|]. split; [reflexivity|].
  exact (activation_rewrites_first_match u1_world ada one_generated
           one_generated_reachable eq_refl).
Defined.
